(** * Verification of the rclone index handler (api/index.js)

    A shallow embedding of the request handler of [src/api/index.js]:
    the binary provisioner [setupRclone], the config synthesizer
    [setupConfig], the bounded executor [executeRclone], the listing
    normalizer and [generateHTML], and the exported handler itself.

    JavaScript strings are sequences of UTF-16 code units; they are modelled
    as [list N].  Effects (environment variables, the file system under /tmp,
    the network, the child process, library decoders) are explicit: every
    function takes the part of the world it reads and returns what it
    changes. *)

From Stdlib Require Import String Ascii DecimalString.
From Stdlib Require Import NArith ZArith Bool Lia List FinFun.
Import ListNotations.

(** ** JavaScript strings *)

Module JS.

Definition char := N.
Definition str := list char.

(** A literal of the source, written as a Rocq string. *)
Definition lit (s : string) : str :=
  map N_of_ascii (list_ascii_of_string s).

(** A literal of the source in which every backquote of the Rocq text
    stands for the double quote (code unit 34) of the source text. *)
Definition litq (s : string) : str :=
  map (fun c => if N.eqb c 96 then 34%N else c) (lit s).

Definition nl : str := [10%N].

Fixpoint str_eqb (a b : str) : bool :=
  match a, b with
  | [], [] => true
  | x :: a', y :: b' => N.eqb x y && str_eqb a' b'
  | _, _ => false
  end.

(** [s.startsWith(p)] *)
Fixpoint startsWith (p s : str) : bool :=
  match p, s with
  | [], _ => true
  | _ :: _, [] => false
  | x :: p', y :: s' => N.eqb x y && startsWith p' s'
  end.

(** [s.endsWith(p)] *)
Definition endsWith (p s : str) : bool :=
  startsWith (rev p) (rev s).

(** [s.includes(p)] *)
Fixpoint includes (p s : str) : bool :=
  startsWith p s ||
  match s with
  | [] => false
  | _ :: s' => includes p s'
  end.

(** Number of positions of [s] at which [p] occurs. *)
Fixpoint occurrences (p s : str) : nat :=
  (if startsWith p s then 1 else 0) +
  match s with
  | [] => 0
  | _ :: s' => occurrences p s'
  end.

(** [s.slice(from, to)] with the relative (negative) indices of JS. *)
Definition clamp_index (len i : Z) : Z :=
  if (i <? 0)%Z then Z.max (len + i) 0 else Z.min i len.

Definition slice (s : str) (from to : Z) : str :=
  let len := Z.of_nat (length s) in
  let a := clamp_index len from in
  let b := clamp_index len to in
  firstn (Z.to_nat (Z.max (b - a) 0)) (skipn (Z.to_nat a) s).

(** [s.slice(from)] *)
Definition slice_from (s : str) (from : Z) : str :=
  slice s from (Z.of_nat (length s)).

(** [parts.join(sep)] *)
Fixpoint join (sep : str) (parts : list str) : str :=
  match parts with
  | [] => []
  | [p] => p
  | p :: rest => p ++ sep ++ join sep rest
  end.

(** [s.split(c)] for a one-character separator: the pieces between the
    separators, empty pieces kept; never the empty array. *)
Fixpoint split_on (c : char) (s : str) : list str :=
  match s with
  | [] => [[]]
  | x :: s' =>
      if N.eqb x c then [] :: split_on c s'
      else match split_on c s' with
           | [] => [[x]]
           | p :: ps => (x :: p) :: ps
           end
  end.

(** Truthiness of a string: non-empty. *)
Definition truthy (s : str) : bool :=
  match s with [] => false | _ => true end.

(** Truthiness of an optional (possibly undefined) string. *)
Definition truthy_opt (o : option str) : bool :=
  match o with Some s => truthy s | None => false end.

(** [Number.isSafeInteger]: the integers that a Number holds exactly,
    from -(2^53 - 1) to 2^53 - 1. *)
Definition safe_integer (z : Z) : bool :=
  (Z.abs z <=? 9007199254740991)%Z.

(** Decimal rendering of an integer, as template literals render it.  A
    Number is a double: this is its rendering for the safe integers only
    (beyond them the digits are those of the nearest double, and from 1e21
    on the exponent form is printed), so the statements below that depend
    on the digits take [safe_integer] as a hypothesis.  Exit codes are
    small integers. *)
Definition of_Z (z : Z) : str :=
  lit (NilZero.string_of_int (Z.to_int z)).

(** LineTerminator code units of ECMAScript: LF, CR, LS, PS. *)
Definition is_line_terminator (c : char) : bool :=
  N.eqb c 10 || N.eqb c 13 || N.eqb c 8232 || N.eqb c 8233.

(** ASCII lower-casing of one code unit. *)
Definition lower_ascii (c : char) : char :=
  if (N.leb 65 c && N.leb c 90)%bool then (c + 32)%N else c.

End JS.

Import JS.

(** ** The regular expressions of the source *)

Module Regex.

(** The longest prefix of [s] made of characters other than [c], and what
    follows it. *)
Fixpoint span_not (c : char) (s : str) : str * str :=
  match s with
  | [] => ([], [])
  | x :: s' =>
      if N.eqb x c then ([], s)
      else let (a, b) := span_not c s' in (x :: a, b)
  end.

Definition lbracket : char := 91%N.
Definition rbracket : char := 93%N.

(** One attempt of [\[([^\]]+)\]] at the head of [s] (the caller checks the
    [^] assertion): the greedy class takes every character up to the first
    closing bracket, needs at least one, and the closing bracket must
    follow.  Backtracking never helps: a shorter run is followed by a
    character of the class.  The result is the length of the match. *)
Definition header_at (s : str) : option nat :=
  match s with
  | [] => None
  | x :: s' =>
      if N.eqb x lbracket then
        match span_not rbracket s' with
        | ((_ :: _) as name, _ :: _) => Some (S (S (length name)))
        | _ => None
        end
      else None
  end.

(** [s.match(/^\[([^\]]+)\]/gm)]: every match, left to right, the search
    resuming where the previous match ended.  [skip] counts the characters
    of [s] still inside the previous match; [bol] says whether the [^]
    assertion of the m flag holds at the head of [s] (start of input, or
    just after a line terminator). *)
Fixpoint headers_from (skip : nat) (bol : bool) (s : str) : list str :=
  match s with
  | [] => []
  | c :: s' =>
      match skip with
      | S k => headers_from k (is_line_terminator c) s'
      | O =>
          match (if bol then header_at s else None) with
          | Some len =>
              firstn len s :: headers_from (pred len) (is_line_terminator c) s'
          | None => headers_from 0 (is_line_terminator c) s'
          end
      end
  end.

(** The value of [contents.match(...)]: [null] when nothing matches. *)
Definition match_headers (s : str) : option (list str) :=
  match headers_from 0 true s with
  | [] => None
  | l => Some l
  end.

(** A header is an opening bracket, a non-empty name without closing
    bracket, and a closing bracket. *)
Definition header_of (name : str) : str := lbracket :: name ++ [rbracket].

Definition is_name (name : str) : Prop :=
  name <> [] /\ ~ In rbracket name.

End Regex.

(** ** Results of fallible operations *)

(** A JavaScript computation either returns or throws an [Error] with a
    message. *)
Inductive outcome (A : Type) : Type :=
| Ok (a : A)
| Threw (message : str).

Arguments Ok {A} a.
Arguments Threw {A} message.

Definition bind {A B} (m : outcome A) (k : A -> outcome B) : outcome B :=
  match m with
  | Ok a => k a
  | Threw e => Threw e
  end.

Notation "x <- m ;; k" := (bind m (fun x => k))
  (at level 61, m at next level, right associativity).
Notation "m ;;; k" := (bind m (fun _ => k))
  (at level 61, right associativity).

(** ** Namespace config synthesizer: [setupConfig] *)

Module Config.

Definition configPath : str := lit "/tmp/rclone.conf".

Definition default_config : str :=
  lit "[combine]" ++ nl ++ lit "type = alias" ++ nl ++ lit "remote = dummy".

Definition combine_tag : str := lit "[combine]".

(** [`${name}=${name}:`] *)
Definition upstream_entry (name : str) : str :=
  name ++ lit "=" ++ name ++ lit ":".

(** [remotes.map(r => r.slice(1, -1))] *)
Definition remoteNames (remotes : list str) : list str :=
  map (fun r => slice r 1 (-1)) remotes.

(** [remoteNames.map(...).join(' ')] *)
Definition upstreams_of (names : list str) : str :=
  join (lit " ") (map upstream_entry names).

(** The text handed to [appendFileSync]. *)
Definition combine_block (upstreams : str) : str :=
  nl ++ nl ++ lit "[combine]" ++ nl ++ lit "type = combine" ++ nl ++
  lit "upstreams = " ++ upstreams.

(** Lines 74 to 83: what the file holds after the "add combine remote if
    not exists" step, from what it held before. *)
Definition ensure_combine (contents : str) : str :=
  if negb (includes combine_tag contents) then
    match Regex.match_headers contents with
    | Some remotes =>
        if (0 <? length remotes)%nat then
          contents ++ combine_block (upstreams_of (remoteNames remotes))
        else contents
    | None => contents
    end
  else contents.

(** The environment variables [setupConfig] reads, and the decoder
    [x => Buffer.from(x, 'base64').toString('utf-8')] of the runtime. *)
Record env := {
  CONFIG_BASE64 : option str;
  CONFIG_URL : option str;
  b64_utf8 : str -> str
}.

(** Lines 62 to 72: the text written to the config file. *)
Definition base_text (e : env) : str :=
  match e.(CONFIG_BASE64) with
  | Some b => if truthy b then e.(b64_utf8) b else
      if truthy_opt e.(CONFIG_URL) then default_config else default_config
  | None =>
      if truthy_opt e.(CONFIG_URL) then default_config else default_config
  end.

(** What the file system answers to the three calls that [setupConfig]
    makes on the config file, in the order of the calls. *)
Record fs := {
  write_config : outcome unit;      (* fs.writeFileSync(configPath, ...) *)
  read_config : outcome unit;       (* fs.readFileSync(configPath, 'utf-8') *)
  append_config : outcome unit      (* fs.appendFileSync(configPath, ...) *)
}.

(** The guards of lines 76 and 78: the combine block is to be appended. *)
Definition needs_combine (contents : str) : bool :=
  negb (includes combine_tag contents) &&
  match Regex.match_headers contents with
  | Some remotes => (0 <? length remotes)%nat
  | None => false
  end.

(** [setupConfig], on a file system whose config file holds [file] (or
    does not exist): every branch overwrites the file with the base text;
    the file is then read back and, where the guards ask for it, completed.
    Each of the three calls may throw, which ends [setupConfig] with that
    error.  The result is the path and what the file holds afterwards. *)
Definition setupConfig (io : fs) (e : env) (file : option str)
    : outcome (str * str) :=
  let written := base_text e in
  io.(write_config) ;;;
  io.(read_config) ;;;
  (if needs_combine written then io.(append_config) else Ok tt) ;;;
  Ok (configPath, ensure_combine written).

(** The names of the sections of a config text, as the source enumerates
    them. *)
Definition section_names (contents : str) : list str :=
  remoteNames (Regex.headers_from 0 true contents).

(** The config text has a section of that name. *)
Definition has_section (name contents : str) : bool :=
  existsb (str_eqb name) (section_names contents).

End Config.


(** ** Bounded process executor: [executeRclone] *)

Module Exec.

(** What the event loop delivers to the callbacks registered by
    [executeRclone], in the order it delivers them.  [Close None] is a
    close with [code === null] (the child was ended by a signal);
    [TimerFired] is the callback of [setTimeout(..., 25000)]. *)
Inductive event : Type :=
| StdoutData (data : str)
| StderrData (data : str)
| Close (code : option Z)
| TimerFired.

Record output := { stdout : str; stderr : str }.

(** State of the promise. *)
Inductive promise : Type :=
| Pending
| Resolved (r : output)
| Rejected (message : str).

(** The variables captured by the callbacks. *)
Record state := {
  acc_stdout : str;
  acc_stderr : str;
  settled : promise;
  killed : bool
}.

Definition initial : state :=
  {| acc_stdout := []; acc_stderr := []; settled := Pending; killed := false |}.

(** [resolve] and [reject] act on a pending promise only. *)
Definition settle (p : promise) (st : state) : state :=
  match st.(settled) with
  | Pending =>
      {| acc_stdout := st.(acc_stdout); acc_stderr := st.(acc_stderr);
         settled := p; killed := st.(killed) |}
  | _ => st
  end.

(** [`${code}`] *)
Definition show_code (code : option Z) : str :=
  match code with
  | Some z => of_Z z
  | None => lit "null"
  end.

Definition exit_message (code : option Z) (err : str) : str :=
  lit "Process exited with code " ++ show_code code ++ lit ": " ++ err.

Definition timeout_message : str := lit "Process timeout".

Definition is_zero (code : option Z) : bool :=
  match code with
  | Some z => Z.eqb z 0
  | None => false
  end.

Definition step (st : state) (ev : event) : state :=
  match ev with
  | StdoutData d =>
      {| acc_stdout := st.(acc_stdout) ++ d; acc_stderr := st.(acc_stderr);
         settled := st.(settled); killed := st.(killed) |}
  | StderrData d =>
      {| acc_stdout := st.(acc_stdout); acc_stderr := st.(acc_stderr) ++ d;
         settled := st.(settled); killed := st.(killed) |}
  | Close code =>
      if is_zero code then
        settle (Resolved {| stdout := st.(acc_stdout);
                            stderr := st.(acc_stderr) |}) st
      else settle (Rejected (exit_message code st.(acc_stderr))) st
  | TimerFired =>
      settle (Rejected timeout_message)
        {| acc_stdout := st.(acc_stdout); acc_stderr := st.(acc_stderr);
           settled := st.(settled); killed := true |}
  end.

Definition run_from (st : state) (trace : list event) : state :=
  fold_left step trace st.

(** The promise returned by [executeRclone], after the event loop has
    delivered [trace]. *)
Definition executeRclone (trace : list event) : promise :=
  (run_from initial trace).(settled).

(** [await executeRclone(...)]: the value, or the thrown error.  A promise
    that never settles gives no outcome. *)
Definition await (p : promise) : option (outcome output) :=
  match p with
  | Pending => None
  | Resolved r => Some (Ok r)
  | Rejected m => Some (Threw m)
  end.

Definition is_close (ev : event) : bool :=
  match ev with Close _ => true | _ => false end.

End Exec.

(** ** POSIX paths, as [path.join] and [path.dirname] treat them *)

Module Path.

Definition slash : char := 47%N.

(** The segment walk of [path.normalize] on an absolute path: empty and
    [.] segments vanish, [..] removes the segment before it and is dropped
    at the root.  [acc] holds the kept segments, last first. *)
Fixpoint walk (acc : list str) (segs : list str) : list str :=
  match segs with
  | [] => rev acc
  | seg :: rest =>
      if str_eqb seg [] || str_eqb seg (lit ".") then walk acc rest
      else if str_eqb seg (lit "..") then walk (tl acc) rest
      else walk (seg :: acc) rest
  end.

(** [path.join(dir, rel)] for an absolute [dir] and a non-empty [rel]. *)
Definition join_abs (dir rel : str) : str :=
  let p := dir ++ [slash] ++ rel in
  let body := join [slash] (walk [] (split_on slash p)) in
  match body with
  | [] => [slash]
  | _ => [slash] ++ body ++ (if endsWith [slash] p then [slash] else [])
  end.

(** [path.dirname(p)] for a path returned by [join_abs]. *)
Definition dirname (p : str) : str :=
  match walk [] (split_on slash p) with
  | [] => [slash]
  | segs => match removelast segs with
            | [] => [slash]
            | init => [slash] ++ join [slash] init
            end
  end.

End Path.

(** ** Binary provisioner: [setupRclone] *)

Module Provision.

Definition rclonePath : str := lit "/tmp/rclone".
Definition zipPath : str := lit "/tmp/rclone.zip".
Definition tmpDir : str := lit "/tmp".

(** The answer of [fetch]: [response.ok], [response.statusText], and the
    outcome of [response.buffer()]. *)
Record response := {
  ok : bool;
  statusText : str;
  buffer : outcome unit
}.

(** What the file system, the network and the archive library answer to
    each call of [setupRclone], in the order of the calls. *)
Record world := {
  rclone_exists : bool;                 (* fs.existsSync(rclonePath) *)
  fetch_archive : outcome response;     (* await fetch(url) *)
  write_zip : outcome unit;             (* fs.writeFileSync(zip, buffer) *)
  zip_entries : outcome (list str);     (* new AdmZip(zip).getEntries() *)
  extract_all : outcome unit;           (* zip.extractAllTo('/tmp', true) *)
  rename_binary : outcome unit;         (* fs.renameSync(extracted, rclonePath) *)
  chmod_binary : outcome unit;          (* fs.chmodSync(rclonePath, 0o755) *)
  unlink_zip : outcome unit;            (* fs.unlinkSync(zip) *)
  dir_exists : str -> bool;             (* fs.existsSync(extractedDir) *)
  rm_dir : str -> outcome unit          (* fs.rmSync(extractedDir, ...) *)
}.

Inductive log_line : Type :=
| Info (text : str)                     (* console.log *)
| Error (text : str) (error : str).     (* console.error *)

(** [/\/rclone$/.test(name)] *)
Definition is_rclone_entry (name : str) : bool :=
  endsWith (lit "/rclone") name.

(** Steps of the try block up to and including [fs.renameSync], which
    puts the binary at [rclonePath]; the result is the extracted path. *)
Definition install (w : world) : outcome str :=
  response <- w.(fetch_archive) ;;
  (if response.(ok) then Ok tt
   else Threw (lit "Failed to download rclone: " ++ response.(statusText))) ;;;
  response.(buffer) ;;;
  w.(write_zip) ;;;
  entries <- w.(zip_entries) ;;
  match find is_rclone_entry entries with
  | None => Threw (lit "rclone binary not found in archive")
  | Some entryName =>
      w.(extract_all) ;;;
      let extractedPath := Path.join_abs tmpDir entryName in
      w.(rename_binary) ;;;
      Ok extractedPath
  end.

(** The clean-up steps, in the same try block: the archive file, then the
    directory the binary was extracted to. *)
Definition cleanup (w : world) (extractedPath : str) : outcome unit :=
  w.(unlink_zip) ;;;
  let extractedDir := Path.dirname extractedPath in
  if w.(dir_exists) extractedDir && negb (str_eqb extractedDir tmpDir)
  then w.(rm_dir) extractedDir
  else Ok tt.

Definition try_block (w : world) : outcome unit :=
  extractedPath <- install w ;;
  w.(chmod_binary) ;;;
  cleanup w extractedPath.

Record result := {
  returned : outcome str;     (* the path, or the error thrown *)
  log : list log_line;
  installed : bool            (* a file is at rclonePath afterwards *)
}.

Definition is_ok {A} (o : outcome A) : bool :=
  match o with Ok _ => true | Threw _ => false end.

Definition setupRclone (w : world) : result :=
  if negb w.(rclone_exists) then
    match try_block w with
    | Ok _ =>
        {| returned := Ok rclonePath;
           log := [Info (lit "Downloading rclone...");
                   Info (lit "Rclone setup complete")];
           installed := true |}
    | Threw e =>
        {| returned := Threw e;
           log := [Info (lit "Downloading rclone...");
                   Error (lit "Failed to setup rclone:") e];
           installed := is_ok (install w) |}
    end
  else
    {| returned := Ok rclonePath; log := []; installed := true |}.

(** The world as the next call finds it: the binary is in place if this
    call left it in place. *)
Definition next (w : world) : world :=
  {| rclone_exists := (setupRclone w).(installed);
     fetch_archive := w.(fetch_archive);
     write_zip := w.(write_zip);
     zip_entries := w.(zip_entries);
     extract_all := w.(extract_all);
     rename_binary := w.(rename_binary);
     chmod_binary := w.(chmod_binary);
     unlink_zip := w.(unlink_zip);
     dir_exists := w.(dir_exists);
     rm_dir := w.(rm_dir) |}.

End Provision.


(** ** HTML listing: [generateHTML] *)

Module Html.

Definition dollar : char := 36%N.

(** The replacement text of [String.prototype.replace] for a pattern
    without capture groups: [$$] is a dollar, [$&] the match, [$`] what
    precedes it, [$'] what follows it; anything else stands for itself. *)
Fixpoint expand (matched before after repl : str) : str :=
  match repl with
  | [] => []
  | c :: r =>
      if N.eqb c dollar then
        match r with
        | d :: r' =>
            if N.eqb d dollar then dollar :: expand matched before after r'
            else if N.eqb d 38 then matched ++ expand matched before after r'
            else if N.eqb d 96 then before ++ expand matched before after r'
            else if N.eqb d 39 then after ++ expand matched before after r'
            else c :: expand matched before after r
        | [] => [c]
        end
      else c :: expand matched before after r
  end.

(** [s.replace(re, repl)] for a global pattern [re] that never matches the
    empty string; [re_at] gives the length of the match of [re] at the head
    of its argument.  [skip] counts the characters still inside the
    previous match, [before] holds the characters already passed, last
    first. *)
Fixpoint replace_from (re_at : str -> option nat) (repl : str)
    (skip : nat) (before : str) (s : str) : str :=
  match s with
  | [] => []
  | c :: s' =>
      match skip with
      | S k => replace_from re_at repl k (c :: before) s'
      | O =>
          match re_at s with
          | Some (S k) =>
              expand (firstn (S k) s) (rev before) (skipn (S k) s) repl ++
              replace_from re_at repl k (c :: before) s'
          | _ => c :: replace_from re_at repl 0 (c :: before) s'
          end
      end
  end.

Definition replace_all (re_at : str -> option nat) (repl s : str) : str :=
  replace_from re_at repl 0 [] s.

(** A pattern that is one literal. *)
Definition literal_at (p s : str) : option nat :=
  if startsWith p s then Some (length p) else None.

(** Start of the last occurrence of [p] in [s]. *)
Fixpoint last_index (p s : str) : option nat :=
  match s with
  | [] => if startsWith p [] then Some 0 else None
  | _ :: s' =>
      match last_index p s' with
      | Some k => Some (S k)
      | None => if startsWith p s then Some 0 else None
      end
  end.

(** The longest prefix without a line terminator. *)
Fixpoint line_prefix (s : str) : str :=
  match s with
  | [] => []
  | c :: s' => if is_line_terminator c then [] else c :: line_prefix s'
  end.

(** A pattern [open .* close] between two literals: the greedy star runs
    to the end of the line (of the input with the s flag) and gives back
    characters until [close] matches, that is at its last occurrence. *)
Definition span_at (dotall : bool) (open close : str) (s : str)
    : option nat :=
  if startsWith open s then
    let rest := skipn (length open) s in
    let reach := if dotall then rest else line_prefix rest in
    match last_index close reach with
    | Some k => Some (length open + k + length close)
    | None => None
    end
  else None.

(** The entry model handed to [generateHTML]. *)
Record entry := {
  name : str;
  url : str;
  isDir : bool;
  size : option Z;
  modTime : option str
}.

Record crumb := { text : str; link : str }.

(** [currentPath.split('/').filter(Boolean)] *)
Definition breadcrumbs (currentPath : str) : list str :=
  filter truthy (split_on Path.slash currentPath).

(** Lines 125 to 129. *)
Definition breadcrumbLinks (currentPath : str) : list crumb :=
  let crumbs := breadcrumbs currentPath in
  {| text := lit "Home"; link := lit "/" |} ::
  map (fun ic : nat * str =>
         {| text := snd ic;
            link := lit "/" ++ join (lit "/") (firstn (fst ic + 1) crumbs) |})
      (combine (seq 0 (length crumbs)) crumbs).

(** [entry.size || dflt], rendered; the digits are those of the source for
    a size that is a safe integer (see [of_Z]), as the sizes of [lsjson]
    are. *)
Definition size_or (dflt : Z) (sz : option Z) : str :=
  match sz with
  | Some z => if Z.eqb z 0 then of_Z dflt else of_Z z
  | None => of_Z dflt
  end.

Definition folder_icon : str :=
  litq "<svg width=`1.5em` height=`1em` version=`1.1` viewBox=`0 0 317 259`><use xlink:href=`#folder`></use></svg>".

Definition file_icon : str :=
  litq "<svg width=`1.5em` height=`1em` version=`1.1` viewBox=`0 0 265 323`><use xlink:href=`#file`></use></svg>".

Definition row_tag : str := litq "<tr class=`file`>".

(** The template literal of lines 139 to 153. *)
Definition row (e : entry) : str :=
  nl ++
  lit "        " ++ row_tag ++ nl ++
  lit "          <td></td>" ++ nl ++
  lit "          <td>" ++ nl ++
  lit "            " ++ (if e.(isDir) then folder_icon else file_icon) ++ nl ++
  litq "            <a href=`" ++ e.(url) ++ litq "`><span class=`name`>" ++
    e.(name) ++ lit "</span></a>" ++ nl ++
  lit "          </td>" ++ nl ++
  litq "          <td data-order=`" ++ size_or (-1) e.(size) ++ litq "`>" ++
    (if e.(isDir) then lit "&mdash;"
     else lit "<size>" ++ size_or 0 e.(size) ++ lit "</size>") ++
    lit "</td>" ++ nl ++
  litq "          <td class=`hideable`>" ++
    (match e.(modTime) with
     | Some t => if truthy t then t else lit "&mdash;"
     | None => lit "&mdash;"
     end) ++ lit "</td>" ++ nl ++
  litq "          <td class=`hideable`></td>" ++ nl ++
  lit "        </tr>" ++ nl ++
  lit "      ".

Definition go_up_row : str :=
  litq "<tr><td></td><td><a href=`..`><span class=`name`>Go up</span></a></td><td>&mdash;</td><td>&mdash;</td><td></td></tr>".

Definition getLightTemplate : str :=
  join nl [
    litq "<!DOCTYPE html>";
    litq "<html>";
    litq "<head>";
    litq "  <title>{{.Name}}</title>";
    litq "  <meta charset=`utf-8`>";
    litq "  <meta name=`viewport` content=`width=device-width, initial-scale=1.0`>";
    litq "  <style>";
    litq "    body { font-family: sans-serif; margin: 20px; }";
    litq "    table { width: 100%; border-collapse: collapse; }";
    litq "    th, td { text-align: left; padding: 8px; border-bottom: 1px solid #ddd; }";
    litq "    th { background-color: #f2f2f2; }";
    litq "    a { text-decoration: none; color: #0066cc; }";
    litq "    a:hover { text-decoration: underline; }";
    litq "    .name { margin-left: 0.5em; }";
    litq "  </style>";
    litq "</head>";
    litq "<body>";
    litq "  <h1>{{range $i, $crumb := .Breadcrumb}}<a href=`{{$crumb.Link}}`>{{$crumb.Text}}</a>{{if ne $i 0}}/{{end}}{{end}}</h1>";
    litq "  <table>";
    litq "    <thead>";
    litq "      <tr><th></th><th>Name</th><th>Size</th><th>Modified</th><th></th></tr>";
    litq "    </thead>";
    litq "    <tbody>";
    lit "      " ++ go_up_row;
    litq "      {{- range .Entries}}{{- end}}";
    litq "    </tbody>";
    litq "  </table>";
    litq "</body>";
    litq "</html>"
  ].

(** [/{{\.Name}}/g] *)
Definition re_name : str -> option nat :=
  literal_at (lit "{{.Name}}").

(** [/{{range \$i, \$crumb := \.Breadcrumb}}.*{{end}}/g] *)
Definition re_breadcrumb : str -> option nat :=
  span_at false (lit "{{range $i, $crumb := .Breadcrumb}}") (lit "{{end}}").

(** [/{{- range \.Entries}}.*{{- end}}/gs] *)
Definition re_entries : str -> option nat :=
  span_at true (lit "{{- range .Entries}}") (lit "{{- end}}").

Definition crumb_link (c : crumb) : str :=
  litq "<a href=`" ++ c.(link) ++ litq "`>" ++ c.(text) ++ lit "</a>".

(** [generateHTML], from the template chosen by [isDarkMode]. *)
Definition render (template : str) (entries : list entry)
    (currentPath : str) : str :=
  replace_all re_entries (join [] (map row entries))
    (replace_all re_breadcrumb
       (join (lit "/") (map crumb_link (breadcrumbLinks currentPath)))
       (replace_all re_name
          (if truthy currentPath then currentPath else lit "Root")
          template)).

(** [getDarkTemplate] reads templates/dark.html, a file of the deployment:
    its text, or the error of the read, is the argument [dark]. *)
Definition generateHTML (dark : outcome str) (entries : list entry)
    (currentPath : str) (isDarkMode : bool) : outcome str :=
  template <- (if isDarkMode then dark else Ok getLightTemplate) ;;
  Ok (render template entries currentPath).

End Html.


(** ** Base64 *)

Module Base64.

(** Value of a character of the base64 alphabet. *)
Definition sextet (c : char) : option N :=
  if (N.leb 65 c && N.leb c 90)%bool then Some (c - 65)%N
  else if (N.leb 97 c && N.leb c 122)%bool then Some (c - 71)%N
  else if (N.leb 48 c && N.leb c 57)%bool then Some (c + 4)%N
  else if N.eqb c 43 then Some 62%N
  else if N.eqb c 47 then Some 63%N
  else None.

(** The bytes of canonical base64 text: six bits enter per character, a
    byte leaves as soon as eight are there; decoding stops at the padding.
    [acc] holds the [bits] bits not yet emitted. *)
Fixpoint decode_from (acc : N) (bits : nat) (s : str) : list N :=
  match s with
  | [] => []
  | c :: s' =>
      match sextet c with
      | None => []
      | Some v =>
          let acc' := (acc * 64 + v)%N in
          if (2 <=? bits)%nat then
            let rest := (bits - 2)%nat in
            N.shiftr acc' (N.of_nat rest) ::
            decode_from (N.land acc' (N.ones (N.of_nat rest))) rest s'
          else decode_from acc' (bits + 6) s'
      end
  end.

(** [Buffer.from(x, 'base64').toString()] on the canonical base64 text of
    an ASCII string: every byte is one code unit. *)
Definition decode_ascii (s : str) : str := decode_from 0 0 s.

End Base64.

(** ** The exported request handler *)

Module Handler.

Record request := {
  method : str;
  url : str;
  authorization : option str      (* req.headers.authorization *)
}.

(** One record of the array printed by [rclone lsjson]. *)
Record raw_entry := {
  Name : str;
  IsDir : bool;
  Size : option Z;
  ModTime : option str
}.

Inductive body : Type :=
| NoBody                                          (* res.end() *)
| Json (error : str) (details : option str)       (* res.json({...}) *)
| Page (html : str).                              (* res.send(html) *)

(** The status, the headers set by [res.setHeader] in the order they were
    set, and the body. *)
Record response := {
  status : Z;
  headers : list (str * str);
  content : body
}.

(** A call of [spawn]: the command, its arguments, and what the config
    file holds at that moment. *)
Record spawn_call := {
  command : str;
  argv : list str;
  config_text : str
}.

(** Everything outside the handler that a request depends on. *)
Record world := {
  USERNAME : option str;
  PASSWORD : option str;
  DARK_MODE : option str;
  CONFIG_BASE64 : option str;
  CONFIG_URL : option str;
  b64_utf8 : str -> str;           (* x => Buffer.from(x, 'base64').toString() *)
  provision : Provision.world;
  config_file : option str;        (* /tmp/rclone.conf before the request *)
  config_io : Config.fs;           (* the file system, for setupConfig *)
  child : spawn_call -> list Exec.event;
  json_parse : str -> outcome (list raw_entry);
  dark_template : outcome str      (* templates/dark.html *)
}.

(** [reply] is the response sent, if one is sent; [spawned] lists the
    child processes started. *)
Record result := {
  reply : option response;
  spawned : list spawn_call
}.

Definition cors : list (str * str) :=
  [ (lit "Access-Control-Allow-Origin", lit "*");
    (lit "Access-Control-Allow-Methods", lit "GET, POST, OPTIONS");
    (lit "Access-Control-Allow-Headers", lit "Content-Type") ].

Definition challenge : str * str :=
  (lit "WWW-Authenticate", litq "Basic realm=`Rclone Index`").

(** The value of a response header, if it was set. *)
Definition get_header (name : str) (r : response) : option str :=
  option_map snd (find (fun h => str_eqb (fst h) name) r.(headers)).

(** The catch clause of the handler. *)
Definition internal_error (hs : list (str * str)) (message : str)
    : response :=
  {| status := 500; headers := hs;
     content := Json (lit "Internal server error") (Some message) |}.

Definition colon : char := 58%N.

(** [a !== b] for a possibly undefined [a] and an environment variable. *)
Definition differs (a b : option str) : bool :=
  match a, b with
  | Some x, Some y => negb (str_eqb x y)
  | None, None => false
  | _, _ => true
  end.

Inductive auth_result : Type :=
| Authorized
| Unauthenticated      (* lines 217 to 221 *)
| InvalidCredentials.  (* lines 224 to 227 *)

(** Lines 215 to 228. *)
Definition check_auth (w : world) (auth : option str) : auth_result :=
  if truthy_opt w.(USERNAME) && truthy_opt w.(PASSWORD) then
    match auth with
    | None => Unauthenticated
    | Some a =>
        if negb (truthy a) || negb (startsWith (lit "Basic ") a)
        then Unauthenticated
        else
          let parts := split_on colon (w.(b64_utf8) (slice_from a 6)) in
          let username := nth_error parts 0 in
          let password := nth_error parts 1 in
          if differs username w.(USERNAME) || differs password w.(PASSWORD)
          then InvalidCredentials
          else Authorized
    end
  else Authorized.

(** [req.url === '/' ? '' : req.url.slice(1)] *)
Definition requestPath_of (u : str) : str :=
  if str_eqb u (lit "/") then [] else slice_from u 1.

(** Lines 241 to 247, one entry. *)
Definition format_entry (requestPath : str) (e : raw_entry) : Html.entry :=
  {| Html.name := e.(Name);
     Html.url := lit "/" ++ requestPath ++
                 (if truthy requestPath then lit "/" else []) ++
                 e.(Name) ++ (if e.(IsDir) then lit "/" else []);
     Html.isDir := e.(IsDir);
     Html.size := e.(Size);
     Html.modTime := e.(ModTime) |}.

Definition normalize (requestPath : str) (entries : list raw_entry)
    : list Html.entry :=
  map (format_entry requestPath) entries.

(** [process.env.DARK_MODE?.toLowerCase() === 'true']: only the ASCII
    capitals lower-case to the letters of [true]. *)
Definition isDarkMode (w : world) : bool :=
  match w.(DARK_MODE) with
  | Some v => str_eqb (map lower_ascii v) (lit "true")
  | None => false
  end.

Definition config_env (w : world) : Config.env :=
  Config.Build_env w.(CONFIG_BASE64) w.(CONFIG_URL) w.(b64_utf8).

Definition lsjson_call (rclonePath configPath config requestPath : str)
    : spawn_call :=
  {| command := rclonePath;
     argv := [lit "lsjson"; lit "combine:" ++ requestPath;
              lit "--config"; configPath];
     config_text := config |}.

(** Lines 230 to 254: the listing and its rendering. *)
Definition list_and_render (w : world) (rclonePath configPath config
    requestPath : str) : result :=
  let call := lsjson_call rclonePath configPath config requestPath in
  match Exec.await (Exec.executeRclone (w.(child) call)) with
  | None => {| reply := None; spawned := [call] |}
  | Some run =>
      let page :=
        r <- run ;;
        entries <- w.(json_parse)
          (if truthy r.(Exec.stdout) then r.(Exec.stdout) else lit "[]") ;;
        Html.generateHTML w.(dark_template) (normalize requestPath entries)
          requestPath (isDarkMode w) in
      {| reply := Some
           match page with
           | Ok html =>
               {| status := 200;
                  headers := cors ++ [(lit "Content-Type", lit "text/html")];
                  content := Page html |}
           | Threw e => internal_error cors e
           end;
         spawned := [call] |}
  end.

(** [module.exports] *)
Definition handler (w : world) (req : request) : result :=
  if str_eqb req.(method) (lit "OPTIONS") then
    {| reply := Some {| status := 200; headers := cors; content := NoBody |};
       spawned := [] |}
  else
    match (Provision.setupRclone w.(provision)).(Provision.returned) with
    | Threw e =>
        {| reply := Some (internal_error cors e); spawned := [] |}
    | Ok rclonePath =>
        match Config.setupConfig w.(config_io) (config_env w)
                w.(config_file) with
        | Threw e =>
            {| reply := Some (internal_error cors e); spawned := [] |}
        | Ok (configPath, config) =>
            let requestPath := requestPath_of req.(url) in
            match check_auth w req.(authorization) with
            | Unauthenticated =>
                {| reply := Some
                     {| status := 401; headers := cors ++ [challenge];
                        content := Json (lit "Authentication required") None |};
                   spawned := [] |}
            | InvalidCredentials =>
                {| reply := Some
                     {| status := 401; headers := cors;
                        content := Json (lit "Invalid credentials") None |};
                   spawned := [] |}
            | Authorized =>
                list_and_render w rclonePath configPath config requestPath
            end
        end
    end.

End Handler.


(** ** Sample environments *)

Module Sample.

(** A deployment whose CONFIG_BASE64 holds the given base64 text. *)
Definition config_env (blob : string) : Config.env :=
  Config.Build_env (Some (lit blob)) None Base64.decode_ascii.

(** Two remotes, [a] and [b]. *)
Definition two_remotes : Config.env :=
  config_env "W2FdCnR5cGUgPSBkcml2ZQpbYl0KdHlwZSA9IGJveAo=".

(** One remote, [gdrive], followed by the comment line
    [# merged view is served as [combine]]. *)
Definition combine_in_comment : Config.env :=
  config_env "W2dkcml2ZV0KdHlwZSA9IGRyaXZlCiMgbWVyZ2VkIHZpZXcgaXMgc2VydmVkIGFzIFtjb21iaW5lXQo=".

(** The two lines [type = drive] and [token = abc], without a header. *)
Definition no_headers : Config.env :=
  config_env "dHlwZSA9IGRyaXZlCnRva2VuID0gYWJjCg==".

(** Every call on the config file returns. *)
Definition healthy : Config.fs :=
  {| Config.write_config := Ok tt;
     Config.read_config := Ok tt;
     Config.append_config := Ok tt |}.

(** The binary is already at its path: nothing else is consulted. *)
Definition binary_present : Provision.world :=
  {| Provision.rclone_exists := true;
     Provision.fetch_archive := Threw (lit "offline");
     Provision.write_zip := Ok tt;
     Provision.zip_entries := Ok [];
     Provision.extract_all := Ok tt;
     Provision.rename_binary := Ok tt;
     Provision.chmod_binary := Ok tt;
     Provision.unlink_zip := Ok tt;
     Provision.dir_exists := fun _ => false;
     Provision.rm_dir := fun _ => Ok tt |}.

(** A first request: the download and the installation succeed; the two
    clean-up calls answer as given. *)
Definition first_use (unlink rm : outcome unit) : Provision.world :=
  {| Provision.rclone_exists := false;
     Provision.fetch_archive :=
       Ok {| Provision.ok := true; Provision.statusText := lit "OK";
             Provision.buffer := Ok tt |};
     Provision.write_zip := Ok tt;
     Provision.zip_entries :=
       Ok [lit "rclone-v1.66.0-linux-amd64/README.txt";
           lit "rclone-v1.66.0-linux-amd64/rclone"];
     Provision.extract_all := Ok tt;
     Provision.rename_binary := Ok tt;
     Provision.chmod_binary := Ok tt;
     Provision.unlink_zip := unlink;
     Provision.dir_exists := fun _ => true;
     Provision.rm_dir := fun _ => rm |}.

(** A parser that knows the empty array only. *)
Definition parse_empty (s : str) : outcome (list Handler.raw_entry) :=
  if str_eqb s (lit "[]") then Ok [] else Threw (lit "Unexpected token").

(** The child prints the empty array and exits with code 0. *)
Definition empty_listing (_ : Handler.spawn_call) : list Exec.event :=
  [Exec.StdoutData (lit "[]"); Exec.Close (Some 0%Z)].

(** A deployment with the binary in place, the light template, and the
    given credentials and config blob. *)
Definition world (username password blob : option str) : Handler.world :=
  {| Handler.USERNAME := username;
     Handler.PASSWORD := password;
     Handler.DARK_MODE := None;
     Handler.CONFIG_BASE64 := blob;
     Handler.CONFIG_URL := None;
     Handler.b64_utf8 := Base64.decode_ascii;
     Handler.provision := binary_present;
     Handler.config_file := None;
     Handler.config_io := healthy;
     Handler.child := empty_listing;
     Handler.json_parse := parse_empty;
     Handler.dark_template := Threw (lit "ENOENT: no such file or directory") |}.

(** The same deployment on its first request, with the given answers to
    the two clean-up calls of the provisioner. *)
Definition first_world (unlink rm : outcome unit) : Handler.world :=
  {| Handler.USERNAME := None;
     Handler.PASSWORD := None;
     Handler.DARK_MODE := None;
     Handler.CONFIG_BASE64 := None;
     Handler.CONFIG_URL := None;
     Handler.b64_utf8 := Base64.decode_ascii;
     Handler.provision := first_use unlink rm;
     Handler.config_file := None;
     Handler.config_io := healthy;
     Handler.child := empty_listing;
     Handler.json_parse := parse_empty;
     Handler.dark_template := Threw (lit "ENOENT: no such file or directory") |}.

Definition get (url : string) (auth : option str) : Handler.request :=
  {| Handler.method := lit "GET"; Handler.url := lit url;
     Handler.authorization := auth |}.

End Sample.

(** ** Observations on event traces *)

Module Trace.

(** The event carries output of the child. *)
Definition is_data (ev : Exec.event) : bool :=
  match ev with
  | Exec.StdoutData _ | Exec.StderrData _ => true
  | _ => false
  end.

Definition is_timer (ev : Exec.event) : bool :=
  match ev with Exec.TimerFired => true | _ => false end.

(** What a trace writes to stdout, in arrival order. *)
Definition stdout_chunks (trace : list Exec.event) : str :=
  concat (map (fun ev => match ev with
                         | Exec.StdoutData d => d
                         | _ => []
                         end) trace).

(** What a trace writes to stderr, in arrival order. *)
Definition stderr_chunks (trace : list Exec.event) : str :=
  concat (map (fun ev => match ev with
                         | Exec.StderrData d => d
                         | _ => []
                         end) trace).

End Trace.

(** ** Config texts laid out section by section *)

Module Ini.

(** No line of [s] starts with an opening bracket; [bol] says whether [s]
    itself begins at a line start. *)
Fixpoint quiet (bol : bool) (s : str) : bool :=
  match s with
  | [] => true
  | c :: s' =>
      negb (bol && N.eqb c Regex.lbracket) && quiet (is_line_terminator c) s'
  end.

(** Whether the position just after [s] is a line start. *)
Fixpoint bol_after (bol : bool) (s : str) : bool :=
  match s with
  | [] => bol
  | c :: s' => bol_after (is_line_terminator c) s'
  end.

(** A section: the header of its name, then its body. *)
Definition section_text (sec : str * str) : str :=
  Regex.header_of (fst sec) ++ snd sec.

Definition sections_text (secs : list (str * str)) : str :=
  concat (map section_text secs).

(** The body of a section that is followed by another one: it has no line
    starting with a bracket and ends with a line break. *)
Definition closed_section (sec : str * str) : Prop :=
  Regex.is_name (fst sec) /\
  quiet false (snd sec) = true /\
  bol_after false (snd sec) = true.

End Ini.

(** ** The stages of a request *)

Module Stage.

(** The config file as [setupConfig] leaves it when it returns. *)
Definition the_config (w : Handler.world) : str :=
  Config.ensure_combine (Config.base_text (Handler.config_env w)).

(** [setupConfig] returns for this request. *)
Definition config_ready (w : Handler.world) : Prop :=
  Config.setupConfig (Handler.config_io w) (Handler.config_env w)
    (Handler.config_file w) = Ok (Config.configPath, the_config w).

(** The listing command of the request. *)
Definition the_call (w : Handler.world) (req : Handler.request)
    (rclonePath : str) : Handler.spawn_call :=
  Handler.lsjson_call rclonePath Config.configPath (the_config w)
    (Handler.requestPath_of (Handler.url req)).

(** The text handed to [JSON.parse]: [result.stdout || '[]']. *)
Definition payload (out : Exec.output) : str :=
  if truthy (Exec.stdout out) then Exec.stdout out else lit "[]".

(** The request with another Authorization header. *)
Definition with_authorization (req : Handler.request) (auth : option str)
    : Handler.request :=
  {| Handler.method := Handler.method req;
     Handler.url := Handler.url req;
     Handler.authorization := auth |}.

Definition content_type : str * str := (lit "Content-Type", lit "text/html").

End Stage.

(** ** Sample listings *)

Module Scenario.

(** A deployment without credentials, with the binary in place and the
    default config, whose child, parser and dark template are given. *)
Definition deployment (dark_mode : option str) (template : outcome str)
    (child : Handler.spawn_call -> list Exec.event)
    (parse : str -> outcome (list Handler.raw_entry)) : Handler.world :=
  {| Handler.USERNAME := None;
     Handler.PASSWORD := None;
     Handler.DARK_MODE := dark_mode;
     Handler.CONFIG_BASE64 := None;
     Handler.CONFIG_URL := None;
     Handler.b64_utf8 := Base64.decode_ascii;
     Handler.provision := Sample.binary_present;
     Handler.config_file := None;
     Handler.config_io := Sample.healthy;
     Handler.child := child;
     Handler.json_parse := parse;
     Handler.dark_template := template |}.

(** The same deployment on a file system that answers [io] to the calls of
    [setupConfig]. *)
Definition on_fs (io : Config.fs) (w : Handler.world) : Handler.world :=
  {| Handler.USERNAME := Handler.USERNAME w;
     Handler.PASSWORD := Handler.PASSWORD w;
     Handler.DARK_MODE := Handler.DARK_MODE w;
     Handler.CONFIG_BASE64 := Handler.CONFIG_BASE64 w;
     Handler.CONFIG_URL := Handler.CONFIG_URL w;
     Handler.b64_utf8 := Handler.b64_utf8 w;
     Handler.provision := Handler.provision w;
     Handler.config_file := Handler.config_file w;
     Handler.config_io := io;
     Handler.child := Handler.child w;
     Handler.json_parse := Handler.json_parse w;
     Handler.dark_template := Handler.dark_template w |}.

(** The config file cannot be written. *)
Definition read_only : Config.fs :=
  {| Config.write_config := Threw (lit "EROFS: read-only file system");
     Config.read_config := Ok tt;
     Config.append_config := Ok tt |}.

(** The child is still running when the timer fires. *)
Definition slow_child (_ : Handler.spawn_call) : list Exec.event :=
  [Exec.StdoutData (lit "[{"); Exec.TimerFired; Exec.Close None].

(** The child never closes and the timer never fires. *)
Definition silent_child (_ : Handler.spawn_call) : list Exec.event :=
  [Exec.StdoutData (lit "[{")].

(** The child prints a truncated array and exits with code 0. *)
Definition truncated_child (_ : Handler.spawn_call) : list Exec.event :=
  [Exec.StdoutData (lit "[{"); Exec.Close (Some 0%Z)].

(** The child prints nothing and exits with code 0. *)
Definition mute_child (_ : Handler.spawn_call) : list Exec.event :=
  [Exec.Close (Some 0%Z)].

Definition readme : Handler.raw_entry :=
  {| Handler.Name := lit "README.md"; Handler.IsDir := false;
     Handler.Size := Some 120%Z; Handler.ModTime := Some (lit "2024-01-01") |}.

Definition photos : Handler.raw_entry :=
  {| Handler.Name := lit "photos"; Handler.IsDir := true;
     Handler.Size := Some (-1)%Z; Handler.ModTime := None |}.

(** A parser that answers the empty array with two entries. *)
Definition parse_two (s : str) : outcome (list Handler.raw_entry) :=
  if str_eqb s (lit "[]") then Ok [photos; readme]
  else Threw (lit "Unexpected end of JSON input").

End Scenario.

(** ** The parts of the light template *)

Module Page.

(** The template up to the title. *)
Definition page_head : str :=
  join nl [
    litq "<!DOCTYPE html>";
    litq "<html>";
    litq "<head>";
    litq "  <title>"
  ].

(** From the end of the title to the breadcrumb. *)
Definition page_upper : str :=
  join nl [
    litq "</title>";
    litq "  <meta charset=`utf-8`>";
    litq "  <meta name=`viewport` content=`width=device-width, initial-scale=1.0`>";
    litq "  <style>";
    litq "    body { font-family: sans-serif; margin: 20px; }";
    litq "    table { width: 100%; border-collapse: collapse; }";
    litq "    th, td { text-align: left; padding: 8px; border-bottom: 1px solid #ddd; }";
    litq "    th { background-color: #f2f2f2; }";
    litq "    a { text-decoration: none; color: #0066cc; }";
    litq "    a:hover { text-decoration: underline; }";
    litq "    .name { margin-left: 0.5em; }";
    litq "  </style>";
    litq "</head>";
    litq "<body>";
    litq "  <h1>"
  ].

(** The span of the template that the breadcrumb replaces. *)
Definition breadcrumb_span : str :=
  litq "{{range $i, $crumb := .Breadcrumb}}<a href=`{{$crumb.Link}}`>{{$crumb.Text}}</a>{{if ne $i 0}}/{{end}}{{end}}".

(** From the breadcrumb to the rows. *)
Definition page_middle : str :=
  join nl [
    litq "</h1>";
    litq "  <table>";
    litq "    <thead>";
    litq "      <tr><th></th><th>Name</th><th>Size</th><th>Modified</th><th></th></tr>";
    litq "    </thead>";
    litq "    <tbody>";
    lit "      " ++ Html.go_up_row;
    litq "      "
  ].

(** The span of the template that the rows replace. *)
Definition entries_span : str := lit "{{- range .Entries}}{{- end}}".

(** After the rows. *)
Definition page_tail : str :=
  join nl [
    [];
    litq "    </tbody>";
    litq "  </table>";
    litq "</body>";
    litq "</html>"
  ].

Definition lbrace : char := 123%N.

(** A character that no pattern of [generateHTML] starts with and that the
    replacement text of [replace] does not interpret. *)
Definition plain (c : char) : Prop := c <> lbrace /\ c <> Html.dollar.

(** [p] differs from [s] at a position that both have. *)
Fixpoint mismatch (p s : str) : bool :=
  match p, s with
  | x :: p', y :: s' => negb (N.eqb x y) || mismatch p' s'
  | _, _ => false
  end.

(** [p] cannot start anywhere in [x], whatever follows [x]. *)
Fixpoint clear_of (p x : str) : bool :=
  match x with
  | [] => true
  | _ :: x' => mismatch p x && clear_of p x'
  end.

(** The matcher finds nothing where [p] does not start. *)
Definition opens_with (re_at : str -> option nat) (p : str) : Prop :=
  forall s, startsWith p s = false -> re_at s = None.

(** The title, the breadcrumb and the rows of a page. *)
Definition title_of (currentPath : str) : str :=
  if truthy currentPath then currentPath else lit "Root".

Definition breadcrumb_of (currentPath : str) : str :=
  join (lit "/") (map Html.crumb_link (Html.breadcrumbLinks currentPath)).

Definition rows_of (entries : list Html.entry) : str :=
  join [] (map Html.row entries).

(** The fields of an entry that are copied into its row: the texts hold no
    dollar sign, and the size is an integer that a Number holds exactly. *)
Definition plain_entry (e : Html.entry) : Prop :=
  ~ In Html.dollar (Html.name e) /\
  ~ In Html.dollar (Html.url e) /\
  (forall t, Html.modTime e = Some t -> ~ In Html.dollar t) /\
  (forall z, Html.size e = Some z -> safe_integer z = true).

(** The same for a record of the payload. *)
Definition plain_record (r : Handler.raw_entry) : Prop :=
  ~ In Html.dollar (Handler.Name r) /\
  (forall t, Handler.ModTime r = Some t -> ~ In Html.dollar t) /\
  (forall z, Handler.Size r = Some z -> safe_integer z = true).

Definition safe_sizes (entries : list Handler.raw_entry) : Prop :=
  forall r z, In r entries -> Handler.Size r = Some z ->
              safe_integer z = true.

End Page.

(** * Properties *)

(** ** The model on small inputs *)

Example headers_two :
  Config.section_names
    (lit "[gdrive]" ++ nl ++ lit "type = drive" ++ nl ++ nl ++
     lit "[my box]" ++ nl ++ lit "type = box" ++ nl)
  = [lit "gdrive"; lit "my box"].
Proof. reflexivity. Qed.

(** The pattern is anchored at line starts, needs a non-empty name, and its
    class also takes line breaks. *)
Example headers_anchored :
  Config.section_names
    (lit " [indented]" ++ nl ++ lit "[]" ++ nl ++ lit "x = [inline]" ++ nl ++
     lit "[a" ++ nl ++ lit "b] [c]" ++ nl ++ lit "[open")
  = [lit "a" ++ nl ++ lit "b"].
Proof. reflexivity. Qed.

Example ensure_two :
  Config.ensure_combine
    (lit "[a]" ++ nl ++ lit "type = drive" ++ nl ++ lit "[b]" ++ nl)
  = lit "[a]" ++ nl ++ lit "type = drive" ++ nl ++ lit "[b]" ++ nl ++
    nl ++ nl ++ lit "[combine]" ++ nl ++ lit "type = combine" ++ nl ++
    lit "upstreams = a=a: b=b:".
Proof. reflexivity. Qed.

Example ensure_default :
  Config.ensure_combine Config.default_config = Config.default_config.
Proof. reflexivity. Qed.

Example decode_alice :
  Base64.decode_ascii (lit "YWxpY2U6d3Jvbmc=") = lit "alice:wrong".
Proof. reflexivity. Qed.

Example split_credentials :
  split_on Handler.colon (lit "bob:x:y:z") =
    [lit "bob"; lit "x"; lit "y"; lit "z"].
Proof. reflexivity. Qed.

Example extracted_path :
  Path.join_abs Provision.tmpDir (lit "rclone-v1.66.0-linux-amd64/rclone")
    = lit "/tmp/rclone-v1.66.0-linux-amd64/rclone"
  /\ Path.dirname (lit "/tmp/rclone-v1.66.0-linux-amd64/rclone")
    = lit "/tmp/rclone-v1.66.0-linux-amd64".
Proof. split; reflexivity. Qed.

Example exit_code_one :
  Exec.executeRclone
    [Exec.StderrData (lit "directory not found"); Exec.Close (Some 1%Z);
     Exec.TimerFired]
  = Exec.Rejected (lit "Process exited with code 1: directory not found").
Proof. reflexivity. Qed.

Example exit_code_zero :
  Exec.executeRclone
    [Exec.StdoutData (lit "[]"); Exec.Close (Some 0%Z); Exec.TimerFired]
  = Exec.Resolved {| Exec.stdout := lit "[]"; Exec.stderr := [] |}.
Proof. reflexivity. Qed.

Example breadcrumbs_nested :
  Html.breadcrumbLinks (lit "docs/2024") =
    [ {| Html.text := lit "Home"; Html.link := lit "/" |};
      {| Html.text := lit "docs"; Html.link := lit "/docs" |};
      {| Html.text := lit "2024"; Html.link := lit "/docs/2024" |} ].
Proof. reflexivity. Qed.

Example breadcrumb_line :
  Html.replace_all Html.re_breadcrumb (lit "X")
    (lit "<h1>{{range $i, $crumb := .Breadcrumb}}a{{end}}b{{end}}</h1>")
  = lit "<h1>X</h1>".
Proof. reflexivity. Qed.

(** ** Facts about the string primitives *)

Section StringFacts.

Lemma str_eqb_refl (a : str) : str_eqb a a = true.
Proof.
  induction a as [|x a IH]; simpl; [reflexivity|].
  now rewrite N.eqb_refl, IH.
Qed.

Lemma str_eqb_eq (a b : str) : str_eqb a b = true <-> a = b.
Proof.
  split.
  - revert b; induction a as [|x a IH]; intros [|y b]; simpl;
      try discriminate; [reflexivity|].
    intros H. apply andb_prop in H as [Hx Hab].
    apply N.eqb_eq in Hx. apply IH in Hab. now subst.
  - intros ->. apply str_eqb_refl.
Qed.

Lemma startsWith_app (p s : str) : startsWith p (p ++ s) = true.
Proof.
  induction p as [|x p IH]; simpl; [reflexivity|].
  now rewrite N.eqb_refl.
Qed.

Lemma startsWith_inv (p s : str) :
  startsWith p s = true -> exists t, s = p ++ t.
Proof.
  revert s; induction p as [|x p IH]; intros s H.
  - now exists s.
  - destruct s as [|y s]; simpl in H; [discriminate|].
    apply andb_prop in H as [Hx Hp]. apply N.eqb_eq in Hx. subst y.
    destruct (IH _ Hp) as [t ->]. now exists t.
Qed.

(** A pattern without the character [c] cannot reach across a [c]. *)
Lemma startsWith_across (c : char) (p a b : str) :
  ~ In c p -> p <> [] ->
  startsWith p (a ++ c :: b) = startsWith p a.
Proof.
  revert p; induction a as [|y a IH]; intros [|x p] Hc Hp; simpl;
    try reflexivity; try congruence.
  - destruct (N.eqb_spec x c) as [->|_]; [|reflexivity].
    exfalso. apply Hc. now left.
  - destruct p as [|x' p'].
    + now destruct a.
    + rewrite IH; [reflexivity| |discriminate].
      intros Hin. apply Hc. now right.
Qed.

Lemma includes_app_r (p a b : str) :
  includes p b = true -> includes p (a ++ b) = true.
Proof.
  intros H. induction a as [|x a IH]; simpl; [exact H|].
  rewrite IH. apply orb_true_r.
Qed.

Lemma includes_here (p s : str) :
  startsWith p s = true -> includes p s = true.
Proof. intros H. destruct s; simpl in *; now rewrite H. Qed.

Lemma includes_intro (p a b : str) : includes p (a ++ p ++ b) = true.
Proof. apply includes_app_r, includes_here, startsWith_app. Qed.

Lemma includes_inv (p s : str) :
  includes p s = true -> exists a b, s = a ++ p ++ b.
Proof.
  induction s as [|x s IH]; simpl; intros H.
  - rewrite orb_false_r in H. apply startsWith_inv in H as [t ->].
    now exists [], t.
  - apply orb_prop in H as [H|H].
    + apply startsWith_inv in H as [t ->]. now exists [], t.
    + destruct (IH H) as (a & b & ->). now exists (x :: a), b.
Qed.

Lemma occurrences_none (p s : str) :
  includes p s = false -> occurrences p s = 0.
Proof.
  induction s as [|x s IH]; simpl; intros H;
    apply orb_false_elim in H as [H1 H2]; rewrite H1; [reflexivity|].
  now rewrite IH.
Qed.

Lemma occurrences_pos (p s : str) :
  includes p s = true -> 1 <= occurrences p s.
Proof.
  induction s as [|x s IH]; simpl; intros H.
  - rewrite orb_false_r in H. rewrite H. lia.
  - destruct (startsWith p (x :: s)); simpl in *; [lia|]. auto.
Qed.

(** Occurrences of a pattern without [c] on the two sides of a [c] add
    up. *)
Lemma occurrences_across (c : char) (p a b : str) :
  ~ In c p -> p <> [] ->
  occurrences p (a ++ c :: b) = occurrences p a + occurrences p (c :: b).
Proof.
  intros Hc Hp. induction a as [|y a IH].
  - destruct p; [congruence|reflexivity].
  - change ((y :: a) ++ c :: b) with (y :: (a ++ c :: b)).
    cbn [occurrences]. rewrite IH.
    change (y :: a ++ c :: b) with ((y :: a) ++ c :: b).
    rewrite startsWith_across by assumption.
    cbn [occurrences]. destruct (startsWith p (y :: a)); lia.
Qed.

Lemma includes_needs (c : char) (p s : str) :
  In c p -> ~ In c s -> includes p s = false.
Proof.
  intros Hp Hs. destruct (includes p s) eqn:E; [|reflexivity].
  apply includes_inv in E as (a & b & ->). exfalso. apply Hs.
  rewrite !in_app_iff. auto.
Qed.

Lemma in_join (c : char) (sep : str) (parts : list str) :
  In c (join sep parts) ->
  In c sep \/ exists p, In p parts /\ In c p.
Proof.
  induction parts as [|p [|q parts] IH]; simpl; intros H.
  - contradiction.
  - right. exists p. auto.
  - rewrite !in_app_iff in H. destruct H as [H|[H|H]].
    + right. exists p. auto.
    + now left.
    + destruct (IH H) as [?|(r & Hr & Hc)]; [now left|].
      right. exists r. auto.
Qed.

Lemma slice_inner (x y : char) (s : str) :
  slice (x :: s ++ [y]) 1 (-1) = s.
Proof.
  unfold slice, clamp_index. cbn [length]. rewrite length_app. cbn [length].
  replace (1 <? 0)%Z with false by reflexivity.
  replace (-1 <? 0)%Z with true by reflexivity.
  rewrite Z.min_l by lia. rewrite Z.max_l by lia.
  change (Z.to_nat 1) with 1%nat. cbn [skipn].
  match goal with
  | |- firstn ?n _ = _ => replace n with (length s)
  end.
  - now rewrite firstn_app, Nat.sub_diag, firstn_all, app_nil_r.
  - rewrite Z.max_l by lia. lia.
Qed.

Lemma split_on_segment (c : char) (u t : str) :
  ~ In c u -> split_on c (u ++ c :: t) = u :: split_on c t.
Proof.
  induction u as [|x u IH]; intros H; cbn [app split_on].
  - now rewrite N.eqb_refl.
  - destruct (N.eqb_spec x c) as [->|_]; [exfalso; apply H; now left|].
    rewrite IH; [reflexivity|]. intros Hin. apply H. now right.
Qed.

Lemma split_on_whole (c : char) (u : str) :
  ~ In c u -> split_on c u = [u].
Proof.
  induction u as [|x u IH]; intros H; cbn [split_on]; [reflexivity|].
  destruct (N.eqb_spec x c) as [->|_]; [exfalso; apply H; now left|].
  rewrite IH; [reflexivity|]. intros Hin. apply H. now right.
Qed.

(** No piece of a split holds the separator. *)
Lemma split_on_pieces (c : char) (s : str) :
  Forall (fun p => ~ In c p) (split_on c s).
Proof.
  induction s as [|x s IH]; cbn [split_on].
  - constructor; [tauto | constructor].
  - destruct (N.eqb_spec x c) as [->|Hx].
    + constructor; [tauto | exact IH].
    + destruct (split_on c s) as [|p ps].
      * constructor; [|constructor].
        intros [E|E]; [now apply Hx | destruct E].
      * inversion IH as [|? ? Hp Hps]; subst. constructor; [|exact Hps].
        intros [E|Hin]; [now apply Hx | contradiction].
Qed.

(** Joining pieces that are free of the separator and splitting again
    gives the pieces back. *)
Lemma split_on_join (c : char) (parts : list str) :
  parts <> [] ->
  Forall (fun p => ~ In c p) parts ->
  split_on c (join [c] parts) = parts.
Proof.
  induction parts as [|p [|q parts] IH]; intros Hne Hall.
  - congruence.
  - cbn [join]. apply split_on_whole. now inversion Hall.
  - inversion Hall as [|? ? Hp Hrest]; subst.
    change (join [c] (p :: q :: parts)) with (p ++ c :: join [c] (q :: parts)).
    rewrite split_on_segment by assumption.
    rewrite IH; [reflexivity | discriminate | assumption].
Qed.

End StringFacts.

(** ** Facts about the header pattern *)

Section HeaderFacts.

Import Regex.

Lemma span_not_spec (c : char) (s : str) :
  s = fst (span_not c s) ++ snd (span_not c s) /\
  ~ In c (fst (span_not c s)) /\
  (snd (span_not c s) = [] \/ exists t, snd (span_not c s) = c :: t).
Proof.
  induction s as [|x s (IH1 & IH2 & IH3)]; simpl.
  - auto.
  - destruct (N.eqb_spec x c) as [->|Hx]; simpl.
    + repeat split; eauto.
    + destruct (span_not c s) as [a b]; simpl in *. repeat split.
      * now f_equal.
      * intros [H|H]; [now apply Hx | now apply IH2].
      * exact IH3.
Qed.

Lemma firstn_through (a : str) (x : char) (t : str) :
  firstn (S (length a)) (a ++ x :: t) = a ++ [x].
Proof. induction a as [|y a IH]; [reflexivity|]. cbn. f_equal. exact IH. Qed.

Lemma header_at_shape (s : str) (len : nat) :
  header_at s = Some len ->
  exists name, is_name name /\ firstn len s = header_of name.
Proof.
  destruct s as [|x s]; simpl; [discriminate|].
  destruct (N.eqb_spec x lbracket) as [->|_]; [|discriminate].
  destruct (span_not_spec rbracket s) as (Hs & Hno & Hb).
  destruct (span_not rbracket s) as [[|n name] [|y rest]]; simpl in *;
    try discriminate.
  intros [= <-]. exists (n :: name). split; [split; [discriminate|exact Hno]|].
  destruct Hb as [Hb|[t Hb]]; [discriminate|]. injection Hb as -> ->.
  rewrite Hs. unfold header_of.
  exact (f_equal (cons lbracket) (firstn_through (n :: name) rbracket t)).
Qed.

Lemma headers_from_shape (s : str) : forall skip bol h,
  In h (headers_from skip bol s) ->
  exists name, is_name name /\ h = header_of name.
Proof.
  induction s as [|c s IH]; intros skip bol h; [contradiction|].
  cbn [headers_from]. destruct skip as [|k]; [|apply IH].
  destruct (if bol then header_at (c :: s) else None) as [len|] eqn:E;
    [|apply IH].
  intros [<-|H]; [|eapply IH; eauto].
  destruct bol; [|discriminate].
  destruct (header_at_shape _ _ E) as (name & Hn & Hf). eauto.
Qed.

(** Every header found occurs in the text. *)
Lemma headers_from_included (s : str) : forall skip bol h,
  In h (headers_from skip bol s) -> includes h s = true.
Proof.
  induction s as [|c s IH]; intros skip bol h; [contradiction|].
  assert (Hrec : forall k b, In h (headers_from k b s) ->
                             includes h (c :: s) = true).
  { intros k b H. cbn [includes]. rewrite (IH _ _ _ H). apply orb_true_r. }
  cbn [headers_from]. destruct skip as [|k]; [|apply Hrec].
  destruct (if bol then header_at (c :: s) else None) as [len|];
    [|apply Hrec].
  intros [<-|H]; [|eapply Hrec; eauto].
  apply includes_here.
  rewrite <- (firstn_skipn len (c :: s)) at 2. apply startsWith_app.
Qed.

Lemma remoteNames_shape (remotes : list str) :
  (forall h, In h remotes -> exists name, is_name name /\ h = header_of name) ->
  map header_of (Config.remoteNames remotes) = remotes /\
  Forall is_name (Config.remoteNames remotes).
Proof.
  induction remotes as [|h remotes IH]; intros H; simpl.
  - split; constructor.
  - destruct (H h (or_introl eq_refl)) as (name & Hn & ->).
    destruct IH as [IH1 IH2]; [intros; apply H; now right|].
    change (slice (header_of name) 1 (-1))
      with (slice (lbracket :: name ++ [rbracket]) 1 (-1)).
    rewrite slice_inner.
    split; [now f_equal | now constructor].
Qed.

Lemma section_names_spec (contents : str) :
  map header_of (Config.section_names contents) =
    headers_from 0 true contents /\
  Forall is_name (Config.section_names contents).
Proof. apply remoteNames_shape. intros h. apply headers_from_shape. Qed.

Lemma has_section_included (name contents : str) :
  Config.has_section name contents = true ->
  includes (header_of name) contents = true.
Proof.
  unfold Config.has_section. intros H.
  apply existsb_exists in H as (n & Hin & Heq).
  apply str_eqb_eq in Heq. subst n.
  apply (headers_from_included contents 0 true).
  rewrite <- (proj1 (section_names_spec contents)). now apply in_map.
Qed.

End HeaderFacts.

(** ** The config synthesizer *)

Section ConfigFacts.

Import Regex Config.

Lemma ensure_combine_unfold (contents : str) :
  ensure_combine contents =
    if includes combine_tag contents then contents
    else match section_names contents with
         | [] => contents
         | names => contents ++ combine_block (upstreams_of names)
         end.
Proof.
  unfold ensure_combine, match_headers, section_names.
  destruct (includes combine_tag contents); [reflexivity|]. cbn [negb].
  destruct (headers_from 0 true contents); reflexivity.
Qed.

Lemma setupConfig_returns (io : fs) (e : env) (file : option str)
    (r : str * str) :
  setupConfig io e file = Ok r ->
  r = (configPath, ensure_combine (base_text e)).
Proof.
  unfold setupConfig.
  destruct (write_config io); [|discriminate].
  destruct (read_config io); [|discriminate]. cbn [bind].
  destruct (if needs_combine (base_text e) then append_config io else Ok tt);
    [|discriminate].
  cbn [bind]. now intros [= <-].
Qed.

Lemma setupConfig_healthy (io : fs) (e : env) (file : option str) :
  write_config io = Ok tt -> read_config io = Ok tt ->
  append_config io = Ok tt ->
  setupConfig io e file = Ok (configPath, ensure_combine (base_text e)).
Proof.
  intros Hw Hr Ha. unfold setupConfig. rewrite Hw, Hr, Ha.
  now destruct (needs_combine (base_text e)).
Qed.

Lemma upstreams_no_rbracket (names : list str) :
  Forall is_name names -> ~ In rbracket (upstreams_of names).
Proof.
  intros Hn Hin. apply in_join in Hin as [Hin|(p & Hp & Hin)].
  - vm_compute in Hin. intuition discriminate.
  - apply in_map_iff in Hp as (name & <- & Hname).
    rewrite Forall_forall in Hn. destruct (Hn _ Hname) as [_ Hno].
    unfold upstream_entry in Hin. rewrite !in_app_iff in Hin.
    destruct Hin as [H|[H|[H|H]]]; try contradiction;
      vm_compute in H; intuition discriminate.
Qed.

Lemma block_occurrences (ups : str) :
  ~ In rbracket ups -> occurrences combine_tag (combine_block ups) = 1.
Proof.
  intros H.
  assert (E : occurrences combine_tag ups = 0).
  { apply occurrences_none, (includes_needs rbracket); [|exact H].
    vm_compute. tauto. }
  unfold combine_block, combine_tag. cbn. cbn in E. rewrite E. reflexivity.
Qed.

Lemma appended_occurrences (contents ups : str) :
  ~ In rbracket ups ->
  occurrences combine_tag (contents ++ combine_block ups) =
    occurrences combine_tag contents + 1.
Proof.
  intros H. rewrite <- (block_occurrences ups H).
  apply (occurrences_across 10%N).
  - vm_compute. intuition discriminate.
  - discriminate.
Qed.

Lemma upstream_entry_inj (a b : str) :
  upstream_entry a = upstream_entry b -> a = b.
Proof.
  unfold upstream_entry. intros H.
  assert (L : length a = length b).
  { apply (f_equal (@length _)) in H. rewrite !length_app in H. lia. }
  apply (f_equal (firstn (length a))) in H.
  rewrite firstn_app, firstn_all, Nat.sub_diag in H. cbn [firstn] in H.
  rewrite app_nil_r in H. rewrite H, L.
  now rewrite firstn_app, firstn_all, Nat.sub_diag, app_nil_r.
Qed.

End ConfigFacts.

(** ** Claims about [setupConfig] *)

Section ConfigClaims.

Import Regex Config.

(** The text appended when the guards pass.  For any config text that does
    not hold the text [[combine]] and in which the header pattern finds
    N >= 1 headers, the completion step appends exactly one block: two
    newlines, the line [[combine]], the line [type = combine], and
    [upstreams = ] followed by exactly N entries joined by single spaces, the
    i-th entry being [name=name:] for the i-th name found; the result holds
    the text [[combine]] exactly once.  A name is whatever the pattern
    captured: any run of characters other than the closing bracket, spaces
    and line breaks included. *)
Lemma ensure_combine_block (contents : str) (N : nat) :
  let names := section_names contents in
  includes combine_tag contents = false ->
  length names = N ->
  1 <= N ->
  let entries := map upstream_entry names in
  let result := ensure_combine contents in
  result = contents ++ nl ++ nl ++ lit "[combine]" ++ nl ++
           lit "type = combine" ++ nl ++
           lit "upstreams = " ++ join (lit " ") entries
  /\ length entries = N
  /\ (forall i name, nth_error names i = Some name ->
        nth_error entries i = Some (name ++ lit "=" ++ name ++ lit ":"))
  /\ (NoDup names -> NoDup entries)
  /\ (Forall (fun name => ~ In 32%N name) names ->
      split_on 32%N (join (lit " ") entries) = entries)
  /\ occurrences combine_tag result = 1.
Proof.
  intros names Hinc Hlen HN entries result.
  assert (Hres : result = contents ++ combine_block (upstreams_of names)).
  { unfold result. rewrite ensure_combine_unfold, Hinc. fold names.
    destruct names; [simpl in Hlen; lia | reflexivity]. }
  repeat split.
  - exact Hres.
  - unfold entries. now rewrite length_map.
  - intros i name Hi. unfold entries.
    now rewrite nth_error_map, Hi.
  - intros Hnd. unfold entries.
    apply Injective_map_NoDup; [|exact Hnd].
    intros a b. apply upstream_entry_inj.
  - intros Hsp. apply (split_on_join 32%N).
    + unfold entries. destruct names; [simpl in Hlen; lia | discriminate].
    + unfold entries. rewrite Forall_map.
      eapply Forall_impl; [|exact Hsp]. intros name Hname Hin.
      unfold upstream_entry in Hin. rewrite !in_app_iff in Hin.
      destruct Hin as [H|[H|[H|H]]]; try contradiction;
        vm_compute in H; intuition discriminate.
  - rewrite Hres, appended_occurrences.
    + now rewrite (occurrences_none _ _ Hinc).
    + apply upstreams_no_rbracket, section_names_spec.
Qed.

(** C1: evaluation at the failing input.  The config text has one section
    header, [[gdrive]], and no combine section; one of its comment lines
    mentions [[combine]].  [setupConfig] returns with the file unchanged:
    no combine section is appended, and the request goes on to list
    combine: on a config that defines no such remote. *)
Theorem combine_in_comment_left_out :
  let w := Sample.world None None
    (Some (lit "W2dkcml2ZV0KdHlwZSA9IGRyaXZlCiMgbWVyZ2VkIHZpZXcgaXMgc2VydmVkIGFzIFtjb21iaW5lXQo=")) in
  let contents := lit "[gdrive]" ++ nl ++ lit "type = drive" ++ nl ++
                  lit "# merged view is served as [combine]" ++ nl in
  base_text (Handler.config_env w) = contents
  /\ section_names contents = [lit "gdrive"]
  /\ has_section (lit "combine") contents = false
  /\ setupConfig (Handler.config_io w) (Handler.config_env w) None =
       Ok (lit "/tmp/rclone.conf", contents)
  /\ Handler.spawned (Handler.handler w (Sample.get "/" None)) =
       [ {| Handler.command := lit "/tmp/rclone";
            Handler.argv := [lit "lsjson"; lit "combine:"; lit "--config";
                             lit "/tmp/rclone.conf"];
            Handler.config_text := contents |} ].
Proof. repeat split; vm_compute; reflexivity. Qed.

End ConfigClaims.

Section ConfigPresence.

Import Regex Config.

Lemma ensure_combine_fixed (contents : str) :
  includes combine_tag contents = true -> ensure_combine contents = contents.
Proof. intros H. now rewrite ensure_combine_unfold, H. Qed.

Lemma ensure_combine_appended (contents : str) :
  includes combine_tag contents = false ->
  section_names contents <> [] ->
  ensure_combine contents =
    contents ++ combine_block (upstreams_of (section_names contents)).
Proof.
  intros H Hn. rewrite ensure_combine_unfold, H.
  destruct (section_names contents); [contradiction | reflexivity].
Qed.

Lemma ensure_combine_untouched (contents : str) :
  section_names contents = [] -> ensure_combine contents = contents.
Proof.
  intros Hn. rewrite ensure_combine_unfold, Hn.
  now destruct (includes combine_tag contents).
Qed.

Lemma block_has_tag (contents ups : str) :
  includes combine_tag (contents ++ combine_block ups) = true.
Proof.
  unfold combine_block. rewrite (app_assoc nl nl), (app_assoc contents).
  apply includes_intro.
Qed.





(** C4.  On a config text that already holds a combine section (and on any
    text holding [[combine]]), the completion step changes nothing, however
    often it is repeated.  For every config text, the second and later
    calls change nothing more, so that the text never holds [[combine]] more
    than once unless it did at the start; and [setupConfig] itself, which
    first rewrites the file from the base text, leaves the same file on
    every call that returns. *)
Theorem setupConfig_idempotent
    (e : env) (file : option str) (contents : str) (n : nat) :
  (has_section (lit "combine") contents = true ->
     includes combine_tag contents = true)
  /\ (includes combine_tag contents = true ->
      Nat.iter n ensure_combine contents = contents)
  /\ Nat.iter (S n) ensure_combine contents = ensure_combine contents
  /\ occurrences combine_tag (Nat.iter n ensure_combine contents)
       <= Nat.max 1 (occurrences combine_tag contents)
  /\ (forall io path config,
        setupConfig io e file = Ok (path, config) ->
        setupConfig io e (Some config) = Ok (path, config)
        /\ (forall io' r, setupConfig io' e (Some config) = Ok r ->
                          r = (path, config))).
Proof.
  assert (Hidem : forall c, ensure_combine (ensure_combine c) = ensure_combine c).
  { intros c. destruct (includes combine_tag c) eqn:Hinc.
    - now rewrite !(ensure_combine_fixed c Hinc).
    - destruct (section_names c) eqn:Hn.
      + now rewrite !(ensure_combine_untouched c Hn).
      + rewrite (ensure_combine_appended c) by congruence.
        apply ensure_combine_fixed, block_has_tag. }
  assert (Hiter : forall k, Nat.iter (S k) ensure_combine contents =
                            ensure_combine contents).
  { induction k as [|k IH]; [reflexivity|].
    change (Nat.iter (S (S k)) ensure_combine contents)
      with (ensure_combine (Nat.iter (S k) ensure_combine contents)).
    now rewrite IH. }
  split; [apply (has_section_included (lit "combine"))|].
  split.
  { intros H. destruct n as [|k]; [reflexivity|].
    now rewrite Hiter, ensure_combine_fixed. }
  split; [apply Hiter|].
  split.
  { destruct n as [|k].
    { change (Nat.iter 0 ensure_combine contents) with contents. lia. }
    rewrite Hiter.
    destruct (includes combine_tag contents) eqn:Hinc.
    + rewrite ensure_combine_fixed by assumption. lia.
    + destruct (section_names contents) eqn:Hn.
      * rewrite ensure_combine_untouched by assumption. lia.
      * rewrite ensure_combine_appended by congruence.
        rewrite appended_occurrences.
        -- rewrite (occurrences_none _ _ Hinc). lia.
        -- apply upstreams_no_rbracket, section_names_spec. }
  intros io path config Hret. split.
  - exact Hret.
  - intros io' r Hr. apply setupConfig_returns in Hr, Hret.
    now rewrite Hr, Hret.
Qed.

End ConfigPresence.

(** ** The bounded executor *)

Section ExecClaims.

Import Exec.

Lemma settle_settled (p : promise) (st : state) :
  settled st <> Pending -> settle p st = st.
Proof. unfold settle. destruct (settled st); congruence. Qed.

Lemma settle_pending (p : promise) (st : state) :
  settled st = Pending -> settled (settle p st) = p.
Proof. unfold settle. intros ->. reflexivity. Qed.

(** A settled promise keeps its value whatever the event loop delivers
    next. *)
Lemma step_keeps (st : state) (ev : event) :
  settled st <> Pending -> settled (step st ev) = settled st.
Proof.
  intros H. destruct ev as [d|d|code|]; cbn [step settled]; try reflexivity.
  - destruct (is_zero code); now rewrite settle_settled.
  - unfold settle. cbn. destruct (settled st); [congruence | reflexivity ..].
Qed.

Lemma run_keeps (trace : list event) : forall st,
  settled st <> Pending -> settled (run_from st trace) = settled st.
Proof.
  induction trace as [|ev trace IH]; intros st H; [reflexivity|].
  cbn [run_from fold_left]. fold (run_from (step st ev) trace).
  rewrite IH; rewrite step_keeps; auto.
Qed.

(** Without a close event, nothing but the timer settles the promise. *)
Lemma run_without_close (trace : list event) : forall st,
  forallb (fun ev => negb (is_close ev)) trace = true ->
  settled st = Pending ->
  settled (run_from st trace) = Pending \/
  settled (run_from st trace) = Rejected timeout_message.
Proof.
  induction trace as [|ev trace IH]; intros st Hno Hp; [now left|].
  cbn [forallb] in Hno. apply andb_prop in Hno as [Hev Hno].
  cbn [run_from fold_left]. fold (run_from (step st ev) trace).
  destruct ev as [d|d|code|]; try discriminate.
  - apply IH; assumption.
  - apply IH; assumption.
  - right. rewrite run_keeps; cbn [step]; rewrite settle_pending;
      (reflexivity || assumption || discriminate).
Qed.

Lemma run_app (a b : list event) (st : state) :
  run_from st (a ++ b) = run_from (run_from st a) b.
Proof. apply fold_left_app. Qed.

Lemma timer_kills (st : state) : killed (step st TimerFired) = true.
Proof. cbn [step]. unfold settle. cbn. now destruct (settled st). Qed.

Lemma step_killed (st : state) (ev : event) :
  killed st = true -> killed (step st ev) = true.
Proof.
  intros H. destruct ev as [d|d|code|]; cbn [step]; try exact H.
  - destruct (is_zero code); unfold settle; destruct (settled st); exact H.
  - apply timer_kills.
Qed.

Lemma run_killed (trace : list event) : forall st,
  killed st = true -> killed (run_from st trace) = true.
Proof.
  induction trace as [|ev trace IH]; intros st H; [exact H|].
  cbn [run_from fold_left]. apply IH, step_killed, H.
Qed.

(** C2.  When the child does not terminate within the timeout, that is, no
    close event is delivered before the callback of the 25 second timer
    runs, the promise of [executeRclone] is rejected with the timeout error,
    whatever was written to stdout or stderr before and whatever is delivered
    afterwards: it is never resolved with the output accumulated so far.
    The child has been sent the kill signal. *)
Theorem executeRclone_timeout (before after : list event) :
  forallb (fun ev => negb (is_close ev)) before = true ->
  let trace := before ++ TimerFired :: after in
  executeRclone trace = Rejected timeout_message
  /\ await (executeRclone trace) = Some (Threw (lit "Process timeout"))
  /\ (forall r, executeRclone trace <> Resolved r)
  /\ killed (run_from initial trace) = true.
Proof.
  intros Hno trace.
  assert (E : executeRclone trace = Rejected timeout_message).
  { unfold executeRclone, trace.
    rewrite run_app. cbn [run_from fold_left].
    fold (run_from (step (run_from initial before) TimerFired) after).
    assert (S1 : settled (step (run_from initial before) TimerFired) =
                 Rejected timeout_message).
    { destruct (run_without_close before initial Hno eq_refl) as [H|H].
      - cbn [step]. now rewrite settle_pending.
      - rewrite step_keeps; [exact H|]. rewrite H. discriminate. }
    rewrite run_keeps; [exact S1|]. rewrite S1. discriminate. }
  repeat split.
  - exact E.
  - now rewrite E.
  - intros r. rewrite E. discriminate.
  - unfold trace. rewrite run_app. cbn [run_from fold_left].
    apply run_killed, timer_kills.
Qed.

Lemma executeRclone_timeout_witness :
  executeRclone
    [StdoutData (lit "[{"); StderrData (lit "NOTICE: slow remote");
     TimerFired; Close None]
  = Rejected (lit "Process timeout").
Proof.
  refine (proj1 (executeRclone_timeout
            [StdoutData (lit "[{"); StderrData (lit "NOTICE: slow remote")]
            [Close None] _)).
  reflexivity.
Defined.

End ExecClaims.

(** ** The listing normalizer *)

Section NormalizeClaims.

Import Handler.

(** C6.  The URL of a listing entry is a slash, the request path, one
    separating slash exactly when the request path is not empty, the name of
    the entry, and one trailing slash exactly when the entry is a directory;
    name and directory flag are carried over, and the records are mapped one
    to one, in order.  The record a.txt (not a directory, size 10) under the
    request path docs gives the single entry /docs/a.txt. *)
Theorem normalize_url (requestPath : str) (e : raw_entry)
    (entries : list raw_entry) :
  let trailing := if IsDir e then lit "/" else [] in
  let f := format_entry requestPath e in
  (requestPath = [] -> Html.url f = lit "/" ++ Name e ++ trailing)
  /\ (requestPath <> [] ->
      Html.url f = lit "/" ++ requestPath ++ lit "/" ++ Name e ++ trailing)
  /\ length (Html.url f) =
       1 + length requestPath + (if truthy requestPath then 1 else 0) +
       length (Name e) + (if IsDir e then 1 else 0)
  /\ Html.name f = Name e
  /\ Html.isDir f = IsDir e
  /\ length (normalize requestPath entries) = length entries
  /\ (forall i r, nth_error entries i = Some r ->
        nth_error (normalize requestPath entries) i =
          Some (format_entry requestPath r))
  /\ normalize (lit "docs")
       [ {| Name := lit "a.txt"; IsDir := false; Size := Some 10%Z;
            ModTime := None |} ]
     = [ {| Html.name := lit "a.txt"; Html.url := lit "/docs/a.txt";
            Html.isDir := false; Html.size := Some 10%Z;
            Html.modTime := None |} ].
Proof.
  intros trailing f. repeat split.
  - intros ->. reflexivity.
  - intros H. destruct requestPath; [congruence | reflexivity].
  - unfold f, format_entry. cbn [Html.url]. rewrite !length_app.
    change (length (lit "/")) with 1.
    destruct (truthy requestPath), (IsDir e);
      try change (length (lit "/")) with 1; cbn [length]; lia.
  - unfold normalize. now rewrite length_map.
  - intros i r H. unfold normalize. now rewrite nth_error_map, H.
Qed.

End NormalizeClaims.

(** ** The binary provisioner *)

Section ProvisionClaims.

Import Provision.

Lemma cleanup_failure (w : world) (extractedPath e : str) :
  let dir := Path.dirname extractedPath in
  unlink_zip w = Threw e \/
  (unlink_zip w = Ok tt /\ dir_exists w dir = true /\
   str_eqb dir tmpDir = false /\ rm_dir w dir = Threw e) ->
  cleanup w extractedPath = Threw e.
Proof.
  intros dir [H|(H1 & H2 & H3 & H4)]; unfold cleanup.
  - now rewrite H.
  - rewrite H1. cbn [bind]. fold dir. now rewrite H2, H3, H4.
Qed.

(** C8, as amended.  On a first use, once the binary has been installed at
    the canonical path and made executable, a failure of the deletion of the
    archive file, or of the deletion of the extraction directory, is logged
    and fatal: [setupRclone] throws that error again, and the request is
    answered with status 500.  The binary stays installed, so the next call
    returns its path at once. *)
Theorem setupRclone_cleanup_failure
    (w : Handler.world) (req : Handler.request) (extractedPath e : str) :
  let p := Handler.provision w in
  let dir := Path.dirname extractedPath in
  rclone_exists p = false ->
  install p = Ok extractedPath ->
  chmod_binary p = Ok tt ->
  unlink_zip p = Threw e \/
  (unlink_zip p = Ok tt /\ dir_exists p dir = true /\
   str_eqb dir tmpDir = false /\ rm_dir p dir = Threw e) ->
  let r := setupRclone p in
  returned r = Threw e
  /\ log r = [Info (lit "Downloading rclone...");
              Error (lit "Failed to setup rclone:") e]
  /\ installed r = true
  /\ (str_eqb (Handler.method req) (lit "OPTIONS") = false ->
      Handler.handler w req =
        {| Handler.reply := Some (Handler.internal_error Handler.cors e);
           Handler.spawned := [] |})
  /\ setupRclone (next p) =
       {| returned := Ok rclonePath; log := []; installed := true |}.
Proof.
  intros p dir Hex Hin Hch Hfail r.
  pose proof (cleanup_failure p extractedPath e Hfail) as Hcl.
  assert (Htry : try_block p = Threw e).
  { unfold try_block. rewrite Hin. cbn [bind]. now rewrite Hch. }
  assert (Hr : r = {| returned := Threw e;
                      log := [Info (lit "Downloading rclone...");
                              Error (lit "Failed to setup rclone:") e];
                      installed := true |}).
  { unfold r, setupRclone. rewrite Hex. cbn [negb]. now rewrite Htry, Hin. }
  repeat split; try (rewrite Hr; reflexivity).
  - intros Hm. unfold Handler.handler. rewrite Hm. fold p. fold r.
    now rewrite Hr.
  - unfold setupRclone at 1. unfold next at 1. cbn [rclone_exists].
    fold r. now rewrite Hr.
Qed.

Lemma setupRclone_cleanup_failure_witness :
  returned (setupRclone
              (Sample.first_use (Threw (lit "EPERM: operation not permitted"))
                                (Ok tt)))
  = Threw (lit "EPERM: operation not permitted").
Proof.
  refine (proj1 (setupRclone_cleanup_failure
            (Sample.first_world (Threw (lit "EPERM: operation not permitted"))
                                (Ok tt))
            (Sample.get "/" None)
            (lit "/tmp/rclone-v1.66.0-linux-amd64/rclone")
            (lit "EPERM: operation not permitted") _ _ _ _)).
  - reflexivity.
  - vm_compute. reflexivity.
  - reflexivity.
  - left. reflexivity.
Defined.

(** C8 as stated fails: the binary is downloaded and installed, the
    deletion of the archive (first case) or of the extraction directory
    (second case) fails, and the call throws instead of returning the
    path; the request ends with status 500. *)
Lemma setupRclone_cleanup_failure_counterexample :
  let unlink_fails :=
    Sample.first_world (Threw (lit "EPERM: operation not permitted")) (Ok tt) in
  let rm_fails :=
    Sample.first_world (Ok tt) (Threw (lit "EBUSY: resource busy or locked")) in
  install (Handler.provision unlink_fails) =
    Ok (lit "/tmp/rclone-v1.66.0-linux-amd64/rclone")
  /\ setupRclone (Handler.provision unlink_fails) =
       {| returned := Threw (lit "EPERM: operation not permitted");
          log := [Info (lit "Downloading rclone...");
                  Error (lit "Failed to setup rclone:")
                        (lit "EPERM: operation not permitted")];
          installed := true |}
  /\ returned (setupRclone (Handler.provision rm_fails)) =
       Threw (lit "EBUSY: resource busy or locked")
  /\ Handler.reply (Handler.handler unlink_fails (Sample.get "/" None)) =
       Some {| Handler.status := 500; Handler.headers := Handler.cors;
               Handler.content :=
                 Handler.Json (lit "Internal server error")
                   (Some (lit "EPERM: operation not permitted")) |}.
Proof. repeat split; vm_compute; reflexivity. Qed.

End ProvisionClaims.

(** ** The request handler *)

Section HandlerClaims.

Import Handler.

Lemma handler_options (w : world) (req : request) :
  method req = lit "OPTIONS" ->
  handler w req =
    {| reply := Some {| status := 200; headers := cors; content := NoBody |};
       spawned := [] |}.
Proof. intros H. unfold handler. rewrite H. reflexivity. Qed.

(** C7, as amended.  The handler looks at the method only to single out
    OPTIONS, which is answered with status 200, the CORS headers and an empty
    body, nothing else being done.  A request with any other method (GET,
    POST, ...) is treated exactly as the GET request with the same URL and
    headers: provisioning, config synthesis, authentication and listing
    all take place. *)
Theorem handler_ignores_method (w : world) (req : request) :
  (str_eqb (method req) (lit "OPTIONS") = false ->
   handler w req =
     handler w {| method := lit "GET"; url := url req;
                  authorization := authorization req |})
  /\ (method req = lit "OPTIONS" ->
      handler w req =
        {| reply := Some {| status := 200; headers := cors;
                            content := NoBody |};
           spawned := [] |}).
Proof.
  split.
  - intros H. unfold handler. rewrite H. reflexivity.
  - apply handler_options.
Qed.

(** C7 as stated fails: a POST request is not refused; it is provisioned,
    listed and answered with status 200 and the page, as a GET request is. *)
Lemma handler_ignores_method_counterexample :
  let w := Sample.world None None None in
  let post := {| method := lit "POST"; url := lit "/";
                 authorization := None |} in
  exists html,
    handler w post =
      {| reply := Some {| status := 200;
                          headers := cors ++ [(lit "Content-Type", lit "text/html")];
                          content := Page html |};
         spawned := [ {| command := lit "/tmp/rclone";
                         argv := [lit "lsjson"; lit "combine:";
                                  lit "--config"; lit "/tmp/rclone.conf"];
                         config_text := Config.default_config |} ] |}
    /\ handler w post = handler w (Sample.get "/" None).
Proof.
  eexists. split; vm_compute; reflexivity.
Qed.

(** C5: evaluation at the failing input.  With USERNAME alice and
    PASSWORD secret configured, the request carrying the credentials
    alice:wrong is answered with status 401 and the CORS headers only: no
    WWW-Authenticate header is set, whereas the request without an
    Authorization header gets the challenge. *)
Theorem invalid_credentials_reply :
  let w := Sample.world (Some (lit "alice")) (Some (lit "secret")) None in
  let wrong := Sample.get "/" (Some (lit "Basic YWxpY2U6d3Jvbmc=")) in
  let missing := Sample.get "/" None in
  reply (handler w wrong) =
    Some {| status := 401; headers := cors;
            content := Json (lit "Invalid credentials") None |}
  /\ option_map (get_header (lit "WWW-Authenticate")) (reply (handler w wrong))
     = Some None
  /\ option_map (get_header (lit "WWW-Authenticate")) (reply (handler w missing))
     = Some (Some (litq "Basic realm=`Rclone Index`"))
  /\ option_map status (reply (handler w missing)) = Some 401%Z
  /\ option_map status
       (reply (handler w (Sample.get "/" (Some (lit "Basic YWxpY2U6c2VjcmV0")))))
     = Some 200%Z.
Proof. repeat split; vm_compute; reflexivity. Qed.

(** C9, as amended.  For a request of path / that is listed with the light
    template and whose listing has no entries (provisioning and
    [setupConfig] having returned, the check passed), the page is the light
    template with title Root and the single breadcrumb Home; its table has
    no data row, and it does have the "Go up" row of the template. *)
Theorem root_listing_empty
    (w : world) (req : request) (rclonePath config : str)
    (out : Exec.output) :
  url req = lit "/" ->
  str_eqb (method req) (lit "OPTIONS") = false ->
  Provision.returned (Provision.setupRclone (provision w)) = Ok rclonePath ->
  Config.setupConfig (config_io w) (config_env w) (config_file w)
    = Ok (Config.configPath, config) ->
  check_auth w (authorization req) = Authorized ->
  isDarkMode w = false ->
  Exec.executeRclone
    (child w (lsjson_call rclonePath Config.configPath config []))
    = Exec.Resolved out ->
  json_parse w (if truthy (Exec.stdout out) then Exec.stdout out else lit "[]")
    = Ok [] ->
  exists html,
    reply (handler w req) =
      Some {| status := 200;
              headers := cors ++ [(lit "Content-Type", lit "text/html")];
              content := Page html |}
    /\ html = Html.render Html.getLightTemplate [] []
    /\ occurrences Html.row_tag html = 0
    /\ occurrences Html.go_up_row html = 1
    /\ includes (lit "<title>Root</title>") html = true.
Proof.
  intros Hurl Hm Hprov Hconf Hauth Hdark Hrun Hparse.
  exists (Html.render Html.getLightTemplate [] []).
  split; [|repeat split; vm_compute; reflexivity].
  unfold handler. rewrite Hm, Hprov, Hconf, Hauth, Hurl.
  change (requestPath_of (lit "/")) with (@nil char).
  unfold list_and_render. rewrite Hrun.
  cbn [Exec.await bind]. rewrite Hparse. cbn [bind].
  rewrite Hdark. reflexivity.
Qed.

Lemma root_listing_empty_witness :
  exists html,
    reply (handler (Sample.world None None None) (Sample.get "/" None)) =
      Some {| status := 200;
              headers := cors ++ [(lit "Content-Type", lit "text/html")];
              content := Page html |}
    /\ html = Html.render Html.getLightTemplate [] []
    /\ occurrences Html.row_tag html = 0
    /\ occurrences Html.go_up_row html = 1
    /\ includes (lit "<title>Root</title>") html = true.
Proof.
  refine (root_listing_empty (Sample.world None None None)
            (Sample.get "/" None) (lit "/tmp/rclone") Config.default_config
            {| Exec.stdout := lit "[]"; Exec.stderr := [] |} _ _ _ _ _ _ _ _);
    reflexivity.
Defined.

(** C9 as stated fails: the page rendered for / without entries has no data
    row, and it has the "Go up" row. *)
Lemma root_listing_empty_counterexample :
  exists html,
    reply (handler (Sample.world None None None) (Sample.get "/" None)) =
      Some {| status := 200;
              headers := cors ++ [(lit "Content-Type", lit "text/html")];
              content := Page html |}
    /\ occurrences Html.row_tag html = 0
    /\ includes
         (litq "<tr><td></td><td><a href=`..`><span class=`name`>Go up</span></a></td>")
         html = true.
Proof. eexists. repeat split; vm_compute; reflexivity. Qed.

End HandlerClaims.

(** ** Basic authentication *)

Section AuthClaims.

Import Handler.






End AuthClaims.

(** ** More on the bounded executor *)

Section ExecMore.

Import Exec Trace.

(** Output events only feed the two accumulators. *)
Lemma run_data (trace : list event) : forall st,
  forallb is_data trace = true ->
  run_from st trace =
    {| acc_stdout := acc_stdout st ++ stdout_chunks trace;
       acc_stderr := acc_stderr st ++ stderr_chunks trace;
       settled := settled st;
       killed := killed st |}.
Proof.
  induction trace as [|ev trace IH]; intros st H.
  - unfold stdout_chunks, stderr_chunks. cbn. rewrite !app_nil_r.
    now destruct st.
  - cbn [forallb] in H. apply andb_prop in H as [Hev H].
    cbn [run_from fold_left]. fold (run_from (step st ev) trace).
    rewrite IH by assumption.
    destruct ev as [d|d|code|]; try discriminate; cbn;
      unfold stdout_chunks, stderr_chunks; cbn; now rewrite <- ?app_assoc.
Qed.

(** The promise after a first part of the trace that settled it. *)
Lemma executeRclone_settled (a b : list event) :
  executeRclone a <> Pending -> executeRclone (a ++ b) = executeRclone a.
Proof.
  intros H. unfold executeRclone. rewrite run_app. now apply run_keeps.
Qed.

Lemma pending_only_data (trace : list event) :
  executeRclone trace = Pending -> forallb is_data trace = true.
Proof.
  induction trace as [|ev trace IH] using rev_ind; [reflexivity|].
  intros H. unfold executeRclone in H. rewrite run_app in H.
  cbn [run_from fold_left] in H.
  destruct (settled (run_from initial trace)) eqn:E.
  - rewrite forallb_app, IH by exact E. cbn [forallb].
    destruct ev as [d|d|code|]; try reflexivity; exfalso.
    + cbn [step] in H. destruct (is_zero code);
        rewrite settle_pending in H by exact E; discriminate.
    + cbn [step] in H. rewrite settle_pending in H by exact E.
      discriminate.
  - rewrite step_keeps in H; rewrite E in *; discriminate.
  - rewrite step_keeps in H; rewrite E in *; discriminate.
Qed.

Lemma data_keeps_pending (trace : list event) :
  forallb is_data trace = true -> executeRclone trace = Pending.
Proof.
  intros H. unfold executeRclone. now rewrite (run_data trace initial H).
Qed.

Lemma timer_rejects (before after : list event) :
  forallb is_data before = true ->
  executeRclone (before ++ TimerFired :: after) = Rejected timeout_message.
Proof.
  intros H.
  change (before ++ TimerFired :: after)
    with (before ++ [TimerFired] ++ after).
  rewrite app_assoc, executeRclone_settled;
    unfold executeRclone; rewrite run_app, (run_data before initial H);
    [reflexivity | discriminate].
Qed.

Lemma close_zero_resolves (before after : list event) :
  forallb is_data before = true ->
  executeRclone (before ++ Close (Some 0%Z) :: after) =
    Resolved {| stdout := stdout_chunks before;
                stderr := stderr_chunks before |}.
Proof.
  intros H.
  change (before ++ Close (Some 0%Z) :: after)
    with (before ++ [Close (Some 0%Z)] ++ after).
  rewrite app_assoc, executeRclone_settled;
    unfold executeRclone; rewrite run_app, (run_data before initial H);
    [reflexivity | discriminate].
Qed.

Lemma close_nonzero_rejects (before after : list event) (code : option Z) :
  forallb is_data before = true ->
  code <> Some 0%Z ->
  executeRclone (before ++ Close code :: after) =
    Rejected (exit_message code (stderr_chunks before)).
Proof.
  intros H Hc.
  assert (Hz : is_zero code = false).
  { destruct code as [z|]; [|reflexivity]. cbn.
    apply Z.eqb_neq. intros ->. now apply Hc. }
  change (before ++ Close code :: after)
    with (before ++ [Close code] ++ after).
  rewrite app_assoc, executeRclone_settled;
    unfold executeRclone; rewrite run_app, (run_data before initial H);
    cbn [run_from fold_left step]; rewrite Hz; [reflexivity | discriminate].
Qed.

(** X1: exit code 0.  When the child closes with code 0 before the timer
    fires, the promise is resolved with everything written to stdout and
    everything written to stderr up to the close, each stream in arrival
    order; what arrives after the close, the timer included, changes
    nothing. *)
Theorem executeRclone_exit_zero (before after : list event) :
  forallb is_data before = true ->
  let result := {| stdout := stdout_chunks before;
                   stderr := stderr_chunks before |} in
  executeRclone (before ++ Close (Some 0%Z) :: after) = Resolved result
  /\ await (executeRclone (before ++ Close (Some 0%Z) :: after))
       = Some (Ok result).
Proof.
  intros H result.
  rewrite (close_zero_resolves before after H).
  split; reflexivity.
Qed.

Lemma executeRclone_exit_zero_witness :
  executeRclone
    [StdoutData (lit "[{"); StderrData (lit "NOTICE"); StdoutData (lit "}]");
     Close (Some 0%Z); StdoutData (lit "late"); TimerFired]
  = Resolved {| stdout := lit "[{}]"; stderr := lit "NOTICE" |}.
Proof.
  refine (proj1 (executeRclone_exit_zero
            [StdoutData (lit "[{"); StderrData (lit "NOTICE");
             StdoutData (lit "}]")]
            [StdoutData (lit "late"); TimerFired] _)).
  reflexivity.
Defined.

(** X2: other exit codes.  When the child closes with a code other than 0
    (or with no code, ended by a signal) before the timer fires, the promise
    is rejected with the message "Process exited with code <code>: " followed
    by everything written to stderr up to the close; stdout is dropped. *)
Theorem executeRclone_exit_nonzero
    (before after : list event) (code : option Z) :
  forallb is_data before = true ->
  code <> Some 0%Z ->
  executeRclone (before ++ Close code :: after) =
    Rejected (lit "Process exited with code " ++ show_code code ++
              lit ": " ++ stderr_chunks before)
  /\ (forall r, executeRclone (before ++ Close code :: after) <> Resolved r).
Proof.
  intros H Hc.
  rewrite (close_nonzero_rejects before after code H Hc).
  split; [reflexivity | discriminate].
Qed.

Lemma executeRclone_exit_nonzero_witness :
  executeRclone
    [StdoutData (lit "[]"); StderrData (lit "directory not found");
     Close (Some 3%Z); TimerFired]
  = Rejected (lit "Process exited with code 3: directory not found").
Proof.
  refine (proj1 (executeRclone_exit_nonzero
            [StdoutData (lit "[]"); StderrData (lit "directory not found")]
            [TimerFired] (Some 3%Z) _ _)).
  - reflexivity.
  - discriminate.
Defined.

(** X3: the promise stays pending exactly as long as nothing but output has
    been delivered: the first close or the timer settles it, and without
    either it never settles. *)
Theorem executeRclone_pending_iff (trace : list event) :
  executeRclone trace = Pending <-> forallb is_data trace = true.
Proof.
  split.
  - apply pending_only_data.
  - apply data_keeps_pending.
Qed.

(** X4: the kill signal is sent exactly when the timer callback has run.
    The timer is never cleared, so it also runs after the child has closed
    and the promise has been settled. *)
Theorem executeRclone_killed_iff (trace : list event) :
  killed (run_from initial trace) = existsb is_timer trace.
Proof.
  assert (G : forall tr st,
             killed (run_from st tr) = killed st || existsb is_timer tr).
  { induction tr as [|ev tr IH]; intros st.
    - cbn. now rewrite orb_false_r.
    - cbn [run_from fold_left existsb]. fold (run_from (step st ev) tr).
      rewrite IH. destruct ev as [d|d|code|]; cbn [is_timer orb].
      + reflexivity.
      + reflexivity.
      + f_equal. cbn [step].
        destruct (is_zero code); unfold settle; now destruct (settled st).
      + rewrite timer_kills. now rewrite orb_true_r. }
  apply G.
Qed.

End ExecMore.

(** ** More on the binary provisioner *)

Section ProvisionMore.

Import Provision.

Lemma tl_lit_app (c : char) (a b : str) : (c :: a) ++ b = c :: (a ++ b).
Proof. reflexivity. Qed.

(** The path of a binary that sits in a plain directory of the archive. *)
Lemma version_dir_paths (d : str) :
  ~ In Path.slash d -> d <> [] -> d <> lit "." -> d <> lit ".." ->
  Path.join_abs tmpDir (d ++ lit "/rclone") = lit "/tmp/" ++ d ++ lit "/rclone"
  /\ Path.dirname (lit "/tmp/" ++ d ++ lit "/rclone") = lit "/tmp/" ++ d.
Proof.
  intros Hs Hne Hdot Hdots.
  assert (E1 : str_eqb d [] = false).
  { destruct (str_eqb d []) eqn:E; [|reflexivity].
    apply str_eqb_eq in E. contradiction. }
  assert (E2 : str_eqb d (lit ".") = false).
  { destruct (str_eqb d (lit ".")) eqn:E; [|reflexivity].
    apply str_eqb_eq in E. contradiction. }
  assert (E3 : str_eqb d (lit "..") = false).
  { destruct (str_eqb d (lit "..")) eqn:E; [|reflexivity].
    apply str_eqb_eq in E. contradiction. }
  assert (Hsplit : split_on Path.slash (lit "/tmp/" ++ d ++ lit "/rclone") =
                   [[]; lit "tmp"; d; lit "rclone"]).
  { change (lit "/tmp/" ++ d ++ lit "/rclone")
      with ([] ++ Path.slash :: lit "tmp" ++ Path.slash :: d ++
            Path.slash :: lit "rclone").
    rewrite split_on_segment by (intros []).
    rewrite split_on_segment by (vm_compute; intuition discriminate).
    rewrite split_on_segment by assumption.
    rewrite split_on_whole by (vm_compute; intuition discriminate).
    reflexivity. }
  assert (Hwalk : Path.walk [] [[]; lit "tmp"; d; lit "rclone"] =
                  [lit "tmp"; d; lit "rclone"]).
  { cbn [Path.walk]. change (str_eqb [] []) with true. cbn [orb].
    change (str_eqb (lit "tmp") []) with false.
    change (str_eqb (lit "tmp") (lit ".")) with false.
    change (str_eqb (lit "tmp") (lit "..")) with false.
    change (str_eqb (lit "rclone") []) with false.
    change (str_eqb (lit "rclone") (lit ".")) with false.
    change (str_eqb (lit "rclone") (lit "..")) with false.
    rewrite E1, E2, E3. reflexivity. }
  split.
  - unfold Path.join_abs.
    change (tmpDir ++ [Path.slash] ++ d ++ lit "/rclone")
      with (lit "/tmp/" ++ d ++ lit "/rclone").
    rewrite Hsplit, Hwalk.
    assert (Hend : endsWith [Path.slash] (lit "/tmp/" ++ d ++ lit "/rclone")
                   = false).
    { unfold endsWith. rewrite !rev_app_distr. reflexivity. }
    rewrite Hend. cbn [join]. rewrite app_nil_r.
    destruct d as [|x d]; [congruence|]. reflexivity.
  - unfold Path.dirname. rewrite Hsplit, Hwalk.
    cbn [removelast join]. reflexivity.
Qed.

(** X5: provisioning is idempotent.  Whenever [setupRclone] returns, it
    returns the canonical path /tmp/rclone and the binary is in place; the
    next call then returns the same path at once, logging nothing and
    whatever the network and the archive would answer. *)
Theorem setupRclone_then_immediate (w : world) (path : str) :
  returned (setupRclone w) = Ok path ->
  path = rclonePath
  /\ installed (setupRclone w) = true
  /\ setupRclone (next w) =
       {| returned := Ok rclonePath; log := []; installed := true |}.
Proof.
  intros H.
  assert (G : returned (setupRclone w) = Ok rclonePath /\
              installed (setupRclone w) = true).
  { revert H. unfold setupRclone. destruct (rclone_exists w); cbn [negb].
    - now split.
    - destruct (try_block w); cbn [returned installed]; [now split|].
      discriminate. }
  destruct G as [G1 G2]. repeat split.
  - rewrite G1 in H. now injection H.
  - exact G2.
  - unfold setupRclone at 1. unfold next at 1. cbn [rclone_exists].
    now rewrite G2.
Qed.

Lemma setupRclone_then_immediate_witness :
  setupRclone (next (Sample.first_use (Ok tt) (Ok tt))) =
    {| returned := Ok rclonePath; log := []; installed := true |}.
Proof.
  refine (proj2 (proj2 (setupRclone_then_immediate
            (Sample.first_use (Ok tt) (Ok tt)) rclonePath _))).
  vm_compute. reflexivity.
Defined.

(** X6: a failed download.  When the binary is missing and the download
    fails (the request throws, or the response status is not a success, in
    which case the message is "Failed to download rclone: " followed by the
    status text), the error is logged and thrown, nothing is installed, the
    request is answered with status 500 and that message, and the next call
    attempts the download again. *)
Theorem setupRclone_download_failure
    (w : Handler.world) (req : Handler.request) (e : str) :
  let p := Handler.provision w in
  rclone_exists p = false ->
  fetch_archive p = Threw e \/
  (exists resp, fetch_archive p = Ok resp /\ ok resp = false /\
                e = lit "Failed to download rclone: " ++ statusText resp) ->
  setupRclone p =
    {| returned := Threw e;
       log := [Info (lit "Downloading rclone...");
               Error (lit "Failed to setup rclone:") e];
       installed := false |}
  /\ (str_eqb (Handler.method req) (lit "OPTIONS") = false ->
      Handler.handler w req =
        {| Handler.reply := Some (Handler.internal_error Handler.cors e);
           Handler.spawned := [] |})
  /\ next p = p.
Proof.
  intros p Hex Hfail.
  assert (Hin : install p = Threw e).
  { unfold install. destruct Hfail as [H|(resp & H & Hok & ->)]; rewrite H.
    - reflexivity.
    - cbn [bind]. now rewrite Hok. }
  assert (Hr : setupRclone p =
    {| returned := Threw e;
       log := [Info (lit "Downloading rclone...");
               Error (lit "Failed to setup rclone:") e];
       installed := false |}).
  { unfold setupRclone, try_block. rewrite Hex, Hin. reflexivity. }
  repeat split.
  - exact Hr.
  - intros Hm. unfold Handler.handler. rewrite Hm. fold p. now rewrite Hr.
  - unfold next. rewrite Hr. cbn [installed]. rewrite <- Hex.
    now destruct p.
Qed.

Lemma setupRclone_download_failure_witness :
  returned (setupRclone
    {| rclone_exists := false;
       fetch_archive :=
         Ok {| ok := false; statusText := lit "Not Found"; buffer := Ok tt |};
       write_zip := Ok tt; zip_entries := Ok []; extract_all := Ok tt;
       rename_binary := Ok tt; chmod_binary := Ok tt; unlink_zip := Ok tt;
       dir_exists := fun _ => false; rm_dir := fun _ => Ok tt |})
  = Threw (lit "Failed to download rclone: Not Found").
Proof.
  refine (f_equal returned (proj1 (setupRclone_download_failure
    {| Handler.USERNAME := None; Handler.PASSWORD := None;
       Handler.DARK_MODE := None; Handler.CONFIG_BASE64 := None;
       Handler.CONFIG_URL := None; Handler.b64_utf8 := Base64.decode_ascii;
       Handler.provision :=
         {| rclone_exists := false;
            fetch_archive :=
              Ok {| ok := false; statusText := lit "Not Found";
                    buffer := Ok tt |};
            write_zip := Ok tt; zip_entries := Ok []; extract_all := Ok tt;
            rename_binary := Ok tt; chmod_binary := Ok tt;
            unlink_zip := Ok tt;
            dir_exists := fun _ => false; rm_dir := fun _ => Ok tt |};
       Handler.config_file := None; Handler.config_io := Sample.healthy;
       Handler.child := Sample.empty_listing;
       Handler.json_parse := Sample.parse_empty;
       Handler.dark_template := Threw [] |}
    (Sample.get "/" None)
    (lit "Failed to download rclone: Not Found") _ _))).
  - reflexivity.
  - right. eexists. repeat split.
Defined.

(** X7: an archive without the binary.  When the download succeeds and no
    entry name of the archive ends with "/rclone" (an entry named just
    "rclone" at the top level does not count), the call throws "rclone
    binary not found in archive" before anything is extracted: nothing is
    installed, whatever extraction and the later steps would answer. *)
Theorem setupRclone_binary_not_found
    (w : world) (resp : response) (entries : list str) :
  rclone_exists w = false ->
  fetch_archive w = Ok resp -> ok resp = true -> buffer resp = Ok tt ->
  write_zip w = Ok tt ->
  zip_entries w = Ok entries ->
  forallb (fun name => negb (endsWith (lit "/rclone") name)) entries = true ->
  setupRclone w =
    {| returned := Threw (lit "rclone binary not found in archive");
       log := [Info (lit "Downloading rclone...");
               Error (lit "Failed to setup rclone:")
                     (lit "rclone binary not found in archive")];
       installed := false |}
  /\ is_rclone_entry (lit "rclone") = false.
Proof.
  intros Hex Hf Hok Hb Hw Hz Hnone.
  assert (Hfind : find is_rclone_entry entries = None).
  { clear Hz. induction entries as [|n entries IH]; [reflexivity|].
    cbn [forallb] in Hnone. apply andb_prop in Hnone as [Hn Hrest].
    cbn [find]. unfold is_rclone_entry at 1.
    apply negb_true_iff in Hn. rewrite Hn. now apply IH. }
  assert (Hin : install w =
                Threw (lit "rclone binary not found in archive")).
  { unfold install. rewrite Hf. cbn [bind]. rewrite Hok. cbn [bind].
    rewrite Hb. cbn [bind]. rewrite Hw. cbn [bind]. rewrite Hz. cbn [bind].
    now rewrite Hfind. }
  split; [|reflexivity].
  unfold setupRclone, try_block. rewrite Hex, Hin. reflexivity.
Qed.

Lemma setupRclone_binary_not_found_witness :
  returned (setupRclone
    {| rclone_exists := false;
       fetch_archive :=
         Ok {| ok := true; statusText := lit "OK"; buffer := Ok tt |};
       write_zip := Ok tt;
       zip_entries := Ok [lit "README.txt"; lit "rclone"; lit "bin/rclone.1"];
       extract_all := Ok tt;
       rename_binary := Ok tt; chmod_binary := Ok tt; unlink_zip := Ok tt;
       dir_exists := fun _ => false; rm_dir := fun _ => Ok tt |})
  = Threw (lit "rclone binary not found in archive").
Proof.
  refine (f_equal returned (proj1 (setupRclone_binary_not_found
    {| rclone_exists := false;
       fetch_archive :=
         Ok {| ok := true; statusText := lit "OK"; buffer := Ok tt |};
       write_zip := Ok tt;
       zip_entries := Ok [lit "README.txt"; lit "rclone"; lit "bin/rclone.1"];
       extract_all := Ok tt;
       rename_binary := Ok tt; chmod_binary := Ok tt; unlink_zip := Ok tt;
       dir_exists := fun _ => false; rm_dir := fun _ => Ok tt |}
    {| ok := true; statusText := lit "OK"; buffer := Ok tt |}
    [lit "README.txt"; lit "rclone"; lit "bin/rclone.1"]
    _ _ _ _ _ _ _))); reflexivity.
Defined.

Lemma setupRclone_returns_path (w : world) (path : str) :
  returned (setupRclone w) = Ok path -> path = rclonePath.
Proof.
  unfold setupRclone. destruct (rclone_exists w); cbn [negb].
  - now intros [= <-].
  - destruct (try_block w); cbn [returned]; [now intros [= <-]|discriminate].
Qed.

(** X9: what the clean-up removes.  When the binary sits in a plain
    directory d of the archive (entry d/rclone), it is extracted to
    /tmp/d/rclone, and after the installation the clean-up deletes the
    archive and then, if it exists, the directory /tmp/d: that directory
    and no other, never /tmp itself. *)
Theorem cleanup_version_dir (w : world) (d : str) :
  ~ In Path.slash d -> d <> [] -> d <> lit "." -> d <> lit ".." ->
  let extractedPath := Path.join_abs tmpDir (d ++ lit "/rclone") in
  extractedPath = lit "/tmp/" ++ d ++ lit "/rclone"
  /\ cleanup w extractedPath =
       bind (unlink_zip w) (fun _ =>
         if dir_exists w (lit "/tmp/" ++ d)
         then rm_dir w (lit "/tmp/" ++ d)
         else Ok tt).
Proof.
  intros Hs Hne Hdot Hdots extractedPath.
  destruct (version_dir_paths d Hs Hne Hdot Hdots) as [Hj Hd].
  split; [exact Hj|].
  unfold cleanup, extractedPath. rewrite Hj, Hd.
  assert (E : str_eqb (lit "/tmp/" ++ d) tmpDir = false).
  { destruct (str_eqb (lit "/tmp/" ++ d) tmpDir) eqn:E; [|reflexivity].
    apply str_eqb_eq in E. apply (f_equal (@length _)) in E.
    rewrite length_app in E. vm_compute in E. lia. }
  rewrite E. cbn [negb]. now rewrite andb_true_r.
Qed.

Lemma cleanup_version_dir_witness :
  Path.join_abs tmpDir (lit "rclone-v1.66.0-linux-amd64" ++ lit "/rclone")
  = lit "/tmp/" ++ lit "rclone-v1.66.0-linux-amd64" ++ lit "/rclone".
Proof.
  refine (proj1 (cleanup_version_dir Sample.binary_present
                   (lit "rclone-v1.66.0-linux-amd64") _ _ _ _)).
  - vm_compute. intuition discriminate.
  - discriminate.
  - discriminate.
  - discriminate.
Defined.

End ProvisionMore.

(** ** More on the config synthesizer *)

Section ConfigMore.

Import Regex Config Ini.

Lemma span_not_stop (c : char) (a r : str) :
  ~ In c a -> span_not c (a ++ c :: r) = (a, c :: r).
Proof.
  induction a as [|x a IH]; intros H; cbn [app span_not].
  - now rewrite N.eqb_refl.
  - destruct (N.eqb_spec x c) as [->|_]; [exfalso; apply H; now left|].
    rewrite IH; [reflexivity|]. intros Hin. apply H. now right.
Qed.

Lemma bol_after_last (bol : bool) (a : str) (c : char) :
  bol_after bol (a ++ [c]) = is_line_terminator c.
Proof.
  revert bol. induction a as [|x a IH]; intros bol; [reflexivity|].
  cbn [app bol_after]. apply IH.
Qed.

(** The scan passes over text in which no line starts with a bracket. *)
Lemma headers_pass_quiet (b rest : str) : forall bol,
  quiet bol b = true ->
  headers_from 0 bol (b ++ rest) = headers_from 0 (bol_after bol b) rest.
Proof.
  induction b as [|c b IH]; intros bol Hq; [reflexivity|].
  cbn [quiet] in Hq. apply andb_prop in Hq as [Hc Hq].
  cbn [app headers_from bol_after].
  assert (E : (if bol then header_at (c :: b ++ rest) else None) = None).
  { destruct bol; [|reflexivity]. cbn [andb] in Hc.
    apply negb_true_iff in Hc. unfold header_at. now rewrite Hc. }
  rewrite E. now apply IH.
Qed.

(** The scan resumes after the characters of a match. *)
Lemma headers_skip (a rest : str) : forall bol,
  headers_from (length a) bol (a ++ rest) =
    headers_from 0 (bol_after bol a) rest.
Proof.
  induction a as [|c a IH]; intros bol.
  - cbn [length app bol_after]. now destruct rest.
  - cbn [length app headers_from bol_after]. apply IH.
Qed.

(** A header at a line start is found, and the scan goes on behind it. *)
Lemma headers_hit (n rest : str) :
  is_name n ->
  headers_from 0 true (header_of n ++ rest) =
    header_of n :: headers_from 0 false rest.
Proof.
  intros [Hne Hno].
  assert (Hat : header_at (header_of n ++ rest) = Some (S (S (length n)))).
  { unfold header_of. cbn [app header_at]. rewrite N.eqb_refl.
    rewrite <- app_assoc. cbn [app]. rewrite span_not_stop by assumption.
    destruct n; [congruence | reflexivity]. }
  unfold header_of in *. cbn [app] in *. cbn [headers_from].
  rewrite Hat. cbn [pred]. f_equal.
  - rewrite <- app_assoc. cbn [app].
    exact (f_equal (cons lbracket) (firstn_through n rbracket rest)).
  - replace (S (length n)) with (length (n ++ [rbracket]))
      by (rewrite length_app; cbn; lia).
    rewrite headers_skip, bol_after_last. reflexivity.
Qed.

Lemma headers_sections (secs : list (str * str)) (rest : str) :
  Forall closed_section secs ->
  headers_from 0 true (sections_text secs ++ rest) =
    map header_of (map fst secs) ++ headers_from 0 true rest.
Proof.
  induction secs as [|[n b] secs IH]; intros H; [reflexivity|].
  inversion H as [|? ? (Hn & Hq & Hb) Hrest]; subst. cbn [fst snd] in *.
  unfold sections_text. cbn [map concat]. fold (sections_text secs).
  unfold section_text at 1. cbn [fst snd].
  rewrite <- !app_assoc, headers_hit by assumption.
  rewrite headers_pass_quiet by assumption. rewrite Hb.
  cbn [map app]. f_equal. now apply IH.
Qed.

Lemma remoteNames_headers (names : list str) :
  remoteNames (map header_of names) = names.
Proof.
  induction names as [|n names IH]; [reflexivity|].
  cbn [map remoteNames]. unfold remoteNames in IH. rewrite IH.
  f_equal. apply slice_inner.
Qed.

(** X10: on a config laid out section by section, the enumeration is
    complete and in order.  Let the text be a preamble without any line
    starting with a bracket, then sections, each a header [[name]] at a line
    start followed by a body without any line starting with a bracket (every
    body but the last ending with a line break).  Then the remotes found
    are exactly the section names, in order; and unless the text holds
    [[combine]], the file is completed with the upstreams of these names. *)
Theorem section_names_complete
    (preamble : str) (secs : list (str * str)) (name body : str) :
  quiet true preamble = true ->
  bol_after true preamble = true ->
  Forall closed_section secs ->
  is_name name ->
  quiet false body = true ->
  let text := preamble ++ sections_text secs ++ header_of name ++ body in
  section_names text = map fst secs ++ [name]
  /\ (includes combine_tag text = false ->
      ensure_combine text =
        text ++ combine_block (upstreams_of (map fst secs ++ [name]))).
Proof.
  intros Hp Hpb Hsecs Hn Hb text.
  assert (E : section_names text = map fst secs ++ [name]).
  { unfold section_names, text.
    rewrite headers_pass_quiet, Hpb by assumption.
    rewrite headers_sections by assumption.
    rewrite headers_hit by assumption.
    rewrite <- (app_nil_r body), headers_pass_quiet by assumption.
    cbn [headers_from].
    change (header_of name :: []) with (map header_of [name]).
    rewrite <- map_app. apply remoteNames_headers. }
  split; [exact E|].
  intros Hinc. rewrite ensure_combine_appended, E; [reflexivity|assumption|].
  rewrite E. now destruct (map fst secs).
Qed.

Lemma section_names_complete_witness :
  section_names
    (lit "# remotes" ++ nl ++
     sections_text
       [(lit "gdrive", nl ++ lit "type = drive" ++ nl ++ nl);
        (lit "my box", nl ++ lit "type = box" ++ nl)] ++
     header_of (lit "s3") ++ nl ++ lit "type = s3")
  = [lit "gdrive"; lit "my box"; lit "s3"].
Proof.
  refine (proj1 (section_names_complete
            (lit "# remotes" ++ nl)
            [(lit "gdrive", nl ++ lit "type = drive" ++ nl ++ nl);
             (lit "my box", nl ++ lit "type = box" ++ nl)]
            (lit "s3") (nl ++ lit "type = s3") _ _ _ _ _)).
  - reflexivity.
  - reflexivity.
  - repeat constructor; try discriminate; vm_compute; intuition discriminate.
  - split; [discriminate | vm_compute; intuition discriminate].
  - reflexivity.
Defined.

(** X11: CONFIG_URL has no effect.  The config written is the decoded
    CONFIG_BASE64 when that variable is set and not empty, and the built-in
    placeholder otherwise; whatever CONFIG_URL holds, the result is the
    same. *)
Theorem setupConfig_ignores_url
    (io : fs) (e : env) (url : option str) (file : option str) :
  setupConfig io (Build_env (CONFIG_BASE64 e) url (b64_utf8 e)) file =
    setupConfig io e file
  /\ (truthy_opt (CONFIG_BASE64 e) = false ->
      forall r, setupConfig io e file = Ok r -> snd r = default_config)
  /\ (forall blob, CONFIG_BASE64 e = Some blob -> blob <> [] ->
      forall r, setupConfig io e file = Ok r ->
                snd r = ensure_combine (b64_utf8 e blob)).
Proof.
  assert (Hbase : base_text (Build_env (CONFIG_BASE64 e) url (b64_utf8 e)) =
                  base_text e).
  { unfold base_text. cbn [CONFIG_BASE64 CONFIG_URL b64_utf8].
    destruct (CONFIG_BASE64 e) as [b|].
    + destruct (truthy b); [reflexivity|].
      now destruct (truthy_opt url), (truthy_opt (CONFIG_URL e)).
    + now destruct (truthy_opt url), (truthy_opt (CONFIG_URL e)). }
  repeat split.
  - unfold setupConfig. now rewrite Hbase.
  - intros H r Hr. apply setupConfig_returns in Hr. subst r. cbn [snd].
    unfold base_text.
    destruct (CONFIG_BASE64 e) as [b|]; cbn [truthy_opt] in H;
      try rewrite H; destruct (truthy_opt (CONFIG_URL e)); reflexivity.
  - intros blob Hb Hne r Hr. apply setupConfig_returns in Hr. subst r.
    cbn [snd]. unfold base_text.
    rewrite Hb. destruct blob; [congruence | reflexivity].
Qed.

Lemma setupConfig_ignores_url_witness :
  snd (Config.configPath, Config.default_config) = default_config.
Proof.
  refine (proj1 (proj2 (setupConfig_ignores_url Sample.healthy
            (Build_env None (Some (lit "https://example.org/rclone.conf"))
               Base64.decode_ascii)
            None None)) _ (Config.configPath, Config.default_config) _);
    reflexivity.
Defined.

(** X12: the existing text is never altered.  Whatever the config text, the
    completion step returns it unchanged or with the combine block appended
    at its end: the old text is a prefix of the new one. *)
Theorem ensure_combine_extends (contents : str) :
  startsWith contents (ensure_combine contents) = true
  /\ (ensure_combine contents = contents
      \/ ensure_combine contents =
           contents ++ combine_block (upstreams_of (section_names contents)))
  /\ length contents <= length (ensure_combine contents).
Proof.
  assert (H : ensure_combine contents = contents
      \/ ensure_combine contents =
           contents ++ combine_block (upstreams_of (section_names contents))).
  { rewrite ensure_combine_unfold.
    destruct (includes combine_tag contents); [now left|].
    destruct (section_names contents); [now left | now right]. }
  repeat split.
  - destruct H as [-> | ->].
    + rewrite <- (app_nil_r contents) at 2. apply startsWith_app.
    + apply startsWith_app.
  - exact H.
  - destruct H as [-> | ->]; [lia|]. rewrite length_app. lia.
Qed.

End ConfigMore.


(** ** More on the request handler *)

Section HandlerMore.

Import Handler Stage.

(** An authorized request goes on to the listing. *)
Lemma handler_listing (w : world) (req : request) (rclonePath : str) :
  str_eqb (method req) (lit "OPTIONS") = false ->
  Provision.returned (Provision.setupRclone (provision w)) = Ok rclonePath ->
  config_ready w ->
  check_auth w (authorization req) = Authorized ->
  handler w req =
    list_and_render w rclonePath Config.configPath (the_config w)
      (requestPath_of (url req)).
Proof.
  intros Hm Hp Hc Ha. unfold handler. rewrite Hm, Hp.
  unfold config_ready in Hc. now rewrite Hc, Ha.
Qed.

(** A failure of [setupConfig] ends the request. *)
Lemma handler_config_failure (w : world) (req : request)
    (rclonePath e : str) :
  str_eqb (method req) (lit "OPTIONS") = false ->
  Provision.returned (Provision.setupRclone (provision w)) = Ok rclonePath ->
  Config.setupConfig (config_io w) (config_env w) (config_file w) = Threw e ->
  handler w req =
    {| reply := Some (internal_error cors e); spawned := [] |}.
Proof.
  intros Hm Hp Hc. unfold handler. now rewrite Hm, Hp, Hc.
Qed.

(** When [setupConfig] returns, it returns the path and the completed
    text. *)
Lemma config_ready_iff (w : world) (r : str * str) :
  Config.setupConfig (config_io w) (config_env w) (config_file w) = Ok r ->
  config_ready w.
Proof.
  intros H. unfold config_ready. rewrite H. f_equal.
  now apply setupConfig_returns in H.
Qed.

(** X13: the shapes of a reply.  Every reply is one of four: status 200 with
    an empty body (OPTIONS); status 200 with the page and the Content-Type
    text/html; status 401 with a JSON error without details; status 500
    with the JSON error "Internal server error" and the message of the
    failure as details.  In each case the three CORS headers come first. *)
Theorem reply_shapes (w : world) (req : request) (r : response) :
  reply (handler w req) = Some r ->
  firstn 3 (headers r) = cors
  /\ ((status r = 200%Z /\ headers r = cors /\ content r = NoBody /\
       method req = lit "OPTIONS")
      \/ (status r = 200%Z /\ headers r = cors ++ [content_type] /\
          exists html, content r = Page html)
      \/ (status r = 401%Z /\ exists msg, content r = Json msg None)
      \/ (status r = 500%Z /\ headers r = cors /\
          exists e, content r = Json (lit "Internal server error") (Some e))).
Proof.
  unfold handler.
  destruct (str_eqb (method req) (lit "OPTIONS")) eqn:Hm.
  { intros [= <-]. apply str_eqb_eq in Hm. split; [reflexivity|]. left. auto. }
  destruct (Provision.returned _) as [rp|e].
  2:{ intros [= <-]. split; [reflexivity|]. right. right. right.
      repeat split. now exists e. }
  destruct (Config.setupConfig _ _ _) as [[configPath config]|e].
  2:{ intros [= <-]. split; [reflexivity|]. right. right. right.
      repeat split. now exists e. }
  destruct (check_auth w (authorization req)).
  - unfold list_and_render. destruct (Exec.await _) as [run|]; [|discriminate].
    cbn [reply]. intros [= <-].
    match goal with |- context [match ?page with Ok _ => _ | Threw _ => _ end] =>
      destruct page as [html|e] end.
    + split; [reflexivity|]. right. left. repeat split. now exists html.
    + split; [reflexivity|]. right. right. right. repeat split. now exists e.
  - intros [= <-]. split; [reflexivity|]. right. right. left.
    split; [reflexivity|]. eexists. reflexivity.
  - intros [= <-]. split; [reflexivity|]. right. right. left.
    split; [reflexivity|]. eexists. reflexivity.
Qed.

Lemma reply_shapes_witness :
  firstn 3 (headers {| status := 200; headers := cors ++ [content_type];
                       content := Page (Html.render Html.getLightTemplate [] []) |})
  = cors.
Proof.
  refine (proj1 (reply_shapes (Sample.world None None None)
                   (Sample.get "/" None) _ _)).
  reflexivity.
Defined.

(** X14: no listing without authorization.  A request starts at most one
    child process, and only after provisioning has succeeded and the
    authentication check has passed; the child is always the command
    /tmp/rclone lsjson combine:<request path> --config /tmp/rclone.conf,
    started on the config file as [setupConfig] left it. *)
Theorem spawn_only_authorized (w : world) (req : request) :
  spawned (handler w req) = []
  \/ (str_eqb (method req) (lit "OPTIONS") = false
      /\ Provision.returned (Provision.setupRclone (provision w))
           = Ok Provision.rclonePath
      /\ check_auth w (authorization req) = Authorized
      /\ spawned (handler w req) =
           [ {| command := lit "/tmp/rclone";
                argv := [lit "lsjson";
                         lit "combine:" ++ requestPath_of (url req);
                         lit "--config"; lit "/tmp/rclone.conf"];
                config_text := the_config w |} ]).
Proof.
  unfold handler.
  destruct (str_eqb (method req) (lit "OPTIONS")) eqn:Hm; [now left|].
  destruct (Provision.returned _) as [rp|e] eqn:Hp; [|now left].
  apply setupRclone_returns_path in Hp. subst rp.
  destruct (Config.setupConfig _ _ _) as [[configPath config]|e] eqn:Hc;
    [|now left].
  apply setupConfig_returns in Hc. injection Hc as -> ->.
  destruct (check_auth w (authorization req)); [|now left|now left].
  right. repeat split.
  unfold list_and_render. now destruct (Exec.await _).
Qed.

(** X15: authentication is off unless both variables are set.  When USERNAME
    or PASSWORD is unset or empty, the Authorization header is not looked
    at: the request is handled the same with any header or none, and is
    never answered with status 401. *)
Theorem auth_disabled (w : world) (req : request) (auth : option str) :
  truthy_opt (USERNAME w) && truthy_opt (PASSWORD w) = false ->
  handler w (with_authorization req auth) = handler w req
  /\ option_map status (reply (handler w req)) <> Some 401%Z.
Proof.
  intros Hoff.
  assert (Ha : forall a, check_auth w a = Authorized).
  { intros a. unfold check_auth. now rewrite Hoff. }
  split.
  - unfold handler, with_authorization. cbn [method url authorization].
    now rewrite !Ha.
  - unfold handler.
    destruct (str_eqb (method req) (lit "OPTIONS")); [discriminate|].
    destruct (Provision.returned _); [|discriminate].
    destruct (Config.setupConfig _ _ _) as [[configPath config]|e];
      [|discriminate].
    rewrite Ha. unfold list_and_render.
    destruct (Exec.await _) as [run|]; [|discriminate]. cbn [reply option_map].
    match goal with |- context [match ?page with Ok _ => _ | Threw _ => _ end] =>
      destruct page end; discriminate.
Qed.

Lemma auth_disabled_witness :
  handler (Sample.world (Some (lit "alice")) None None)
    (with_authorization (Sample.get "/" None) (Some (lit "Basic bm9uZQ==")))
  = handler (Sample.world (Some (lit "alice")) None None) (Sample.get "/" None).
Proof.
  refine (proj1 (auth_disabled (Sample.world (Some (lit "alice")) None None)
                   (Sample.get "/" None) (Some (lit "Basic bm9uZQ==")) _)).
  reflexivity.
Defined.

(** X16: the order of the stages.  For a request other than OPTIONS, a
    failure of provisioning is answered with status 500 whatever the
    credentials; once provisioning has succeeded, a failure of
    [setupConfig] (the config file cannot be written, read or completed) is
    answered with status 500 and its message, again whatever the
    credentials, so before any authentication; once both have returned, a
    request that fails the check is answered with status 401 whatever the
    child, the parser and the template would do.  No child is started in any
    of these cases. *)
Theorem stage_order (w : world) (req : request) :
  str_eqb (method req) (lit "OPTIONS") = false ->
  (forall e,
      Provision.returned (Provision.setupRclone (provision w)) = Threw e ->
      forall auth,
        handler w (with_authorization req auth) =
          {| reply := Some (internal_error cors e); spawned := [] |})
  /\ (forall p e,
      Provision.returned (Provision.setupRclone (provision w)) = Ok p ->
      Config.setupConfig (config_io w) (config_env w) (config_file w)
        = Threw e ->
      forall auth,
        handler w (with_authorization req auth) =
          {| reply := Some (internal_error cors e); spawned := [] |})
  /\ (forall p r,
      Provision.returned (Provision.setupRclone (provision w)) = Ok p ->
      Config.setupConfig (config_io w) (config_env w) (config_file w)
        = Ok r ->
      check_auth w (authorization req) <> Authorized ->
      option_map status (reply (handler w req)) = Some 401%Z
      /\ spawned (handler w req) = []).
Proof.
  intros Hm. split; [|split].
  - intros e He auth. unfold handler, with_authorization. cbn [method].
    now rewrite Hm, He.
  - intros p e Hp He auth.
    now apply (handler_config_failure w (with_authorization req auth) p e).
  - intros p [configPath config] Hp Hc Ha.
    unfold handler. rewrite Hm, Hp, Hc.
    destruct (check_auth w (authorization req)); [contradiction| |];
      now split.
Qed.

Lemma stage_order_witness :
  handler (Scenario.on_fs Scenario.read_only
             (Sample.world (Some (lit "alice")) (Some (lit "secret")) None))
    (with_authorization (Sample.get "/" None) None)
  = {| reply := Some (internal_error cors
                        (lit "EROFS: read-only file system"));
       spawned := [] |}.
Proof.
  refine (proj1 (proj2 (stage_order
            (Scenario.on_fs Scenario.read_only
               (Sample.world (Some (lit "alice")) (Some (lit "secret")) None))
            (Sample.get "/" None) _))
            (lit "/tmp/rclone") (lit "EROFS: read-only file system") _ _ None).
  - reflexivity.
  - reflexivity.
  - reflexivity.
Defined.

(** What the handler does with a settled listing. *)
Lemma handler_settled (w : world) (req : request) (rclonePath : str)
    (run : outcome Exec.output) :
  str_eqb (method req) (lit "OPTIONS") = false ->
  Provision.returned (Provision.setupRclone (provision w)) = Ok rclonePath ->
  config_ready w ->
  check_auth w (authorization req) = Authorized ->
  Exec.await (Exec.executeRclone (child w (the_call w req rclonePath)))
    = Some run ->
  handler w req =
    {| reply := Some
         match
           bind run (fun r =>
             bind (json_parse w (payload r)) (fun entries =>
               Html.generateHTML (dark_template w)
                 (normalize (requestPath_of (url req)) entries)
                 (requestPath_of (url req)) (isDarkMode w)))
         with
         | Ok html =>
             {| status := 200; headers := cors ++ [content_type];
                content := Page html |}
         | Threw e => internal_error cors e
         end;
       spawned := [the_call w req rclonePath] |}.
Proof.
  intros Hm Hp Hc Ha Hrun.
  rewrite (handler_listing w req rclonePath Hm Hp Hc Ha).
  unfold list_and_render. fold (the_call w req rclonePath).
  now rewrite Hrun.
Qed.

(** X17: a failed listing.  Once provisioning and [setupConfig] have
    returned, for an authorized request, when the child is still running as
    the timer fires the reply is status 500 with details "Process timeout";
    when it closes first with a code other than 0 the reply is status 500
    with details "Process exited with code <code>: " followed by its
    stderr.  Whatever it wrote to stdout is not used. *)
Theorem listing_failure
    (w : world) (req : request) (rclonePath : str)
    (before after : list Exec.event) :
  str_eqb (method req) (lit "OPTIONS") = false ->
  Provision.returned (Provision.setupRclone (provision w)) = Ok rclonePath ->
  config_ready w ->
  check_auth w (authorization req) = Authorized ->
  forallb Trace.is_data before = true ->
  (child w (the_call w req rclonePath) = before ++ Exec.TimerFired :: after ->
   handler w req =
     {| reply := Some (internal_error cors (lit "Process timeout"));
        spawned := [the_call w req rclonePath] |})
  /\ (forall code,
      child w (the_call w req rclonePath) = before ++ Exec.Close code :: after ->
      code <> Some 0%Z ->
      handler w req =
        {| reply := Some (internal_error cors
                     (lit "Process exited with code " ++ Exec.show_code code ++
                      lit ": " ++ Trace.stderr_chunks before));
           spawned := [the_call w req rclonePath] |}).
Proof.
  intros Hm Hp Hready Ha Hd. split.
  - intros Hc.
    rewrite (handler_settled w req rclonePath (Threw Exec.timeout_message));
      [reflexivity | assumption ..|].
    now rewrite Hc, timer_rejects.
  - intros code Hc Hne.
    rewrite (handler_settled w req rclonePath
               (Threw (Exec.exit_message code (Trace.stderr_chunks before))));
      [reflexivity | assumption ..|].
    now rewrite Hc, close_nonzero_rejects.
Qed.

Lemma listing_failure_witness :
  handler (Scenario.deployment None (Threw []) Scenario.slow_child
             Sample.parse_empty)
          (Sample.get "/docs" None)
  = {| reply := Some (internal_error cors (lit "Process timeout"));
       spawned := [the_call
                     (Scenario.deployment None (Threw []) Scenario.slow_child
                        Sample.parse_empty)
                     (Sample.get "/docs" None) (lit "/tmp/rclone")] |}.
Proof.
  refine (proj1 (listing_failure
            (Scenario.deployment None (Threw []) Scenario.slow_child
               Sample.parse_empty)
            (Sample.get "/docs" None) (lit "/tmp/rclone")
            [Exec.StdoutData (lit "[{")] [Exec.Close None] _ _ _ _ _) _);
    reflexivity.
Defined.

(** X18: a malformed payload is never dropped silently.  Once provisioning
    and [setupConfig] have returned, for an authorized request whose child
    exits with code 0, the parser is given the whole stdout, or the text
    "[]" when stdout is empty; when the parser throws, the reply is status
    500 with the parser's message as details. *)
Theorem parse_failure
    (w : world) (req : request) (rclonePath message : str)
    (before after : list Exec.event) :
  str_eqb (method req) (lit "OPTIONS") = false ->
  Provision.returned (Provision.setupRclone (provision w)) = Ok rclonePath ->
  config_ready w ->
  check_auth w (authorization req) = Authorized ->
  child w (the_call w req rclonePath)
    = before ++ Exec.Close (Some 0%Z) :: after ->
  forallb Trace.is_data before = true ->
  let text := if truthy (Trace.stdout_chunks before)
              then Trace.stdout_chunks before else lit "[]" in
  json_parse w text = Threw message ->
  handler w req =
    {| reply := Some (internal_error cors message);
       spawned := [the_call w req rclonePath] |}.
Proof.
  intros Hm Hp Hready Ha Hc Hd text Hparse.
  rewrite (handler_settled w req rclonePath
             (Ok {| Exec.stdout := Trace.stdout_chunks before;
                    Exec.stderr := Trace.stderr_chunks before |}));
    try assumption.
  - cbn [bind]. unfold payload. cbn [Exec.stdout]. fold text.
    now rewrite Hparse.
  - now rewrite Hc, close_zero_resolves.
Qed.

Lemma parse_failure_witness :
  handler (Scenario.deployment None (Threw []) Scenario.truncated_child
             Sample.parse_empty)
          (Sample.get "/" None)
  = {| reply := Some (internal_error cors (lit "Unexpected token"));
       spawned := [the_call
                     (Scenario.deployment None (Threw [])
                        Scenario.truncated_child Sample.parse_empty)
                     (Sample.get "/" None) (lit "/tmp/rclone")] |}.
Proof.
  refine (parse_failure
            (Scenario.deployment None (Threw []) Scenario.truncated_child
               Sample.parse_empty)
            (Sample.get "/" None) (lit "/tmp/rclone") (lit "Unexpected token")
            [Exec.StdoutData (lit "[{")] [] _ _ _ _ _ _ _);
    reflexivity.
Defined.

(** X19: the page of a successful listing.  Once provisioning and
    [setupConfig] have returned, for an authorized request whose child exits
    with code 0 and whose payload parses into records whose sizes are safe
    integers, the reply is status 200 with Content-Type text/html; in light
    mode the page is the built-in template rendered with one entry per
    record, in the order of the payload, for the request path; in dark mode
    it is the dark template rendered the same way, or status 500 when that
    file cannot be read. *)
Theorem listing_page
    (w : world) (req : request) (rclonePath : str)
    (before after : list Exec.event) (entries : list raw_entry) :
  str_eqb (method req) (lit "OPTIONS") = false ->
  Provision.returned (Provision.setupRclone (provision w)) = Ok rclonePath ->
  config_ready w ->
  check_auth w (authorization req) = Authorized ->
  child w (the_call w req rclonePath)
    = before ++ Exec.Close (Some 0%Z) :: after ->
  forallb Trace.is_data before = true ->
  json_parse w (if truthy (Trace.stdout_chunks before)
                then Trace.stdout_chunks before else lit "[]") = Ok entries ->
  Page.safe_sizes entries ->
  let path := requestPath_of (url req) in
  let page template :=
    {| status := 200; headers := cors ++ [content_type];
       content := Page (Html.render template (normalize path entries) path) |}
  in
  (isDarkMode w = false ->
   reply (handler w req) = Some (page Html.getLightTemplate))
  /\ (isDarkMode w = true -> forall t, dark_template w = Ok t ->
      reply (handler w req) = Some (page t))
  /\ (isDarkMode w = true -> forall e, dark_template w = Threw e ->
      reply (handler w req) = Some (internal_error cors e))
  /\ spawned (handler w req) = [the_call w req rclonePath].
Proof.
  intros Hm Hp Hready Ha Hc Hd Hparse _ path page.
  assert (H : handler w req = _) by
    (apply (handler_settled w req rclonePath
              (Ok {| Exec.stdout := Trace.stdout_chunks before;
                     Exec.stderr := Trace.stderr_chunks before |}));
     try assumption; now rewrite Hc, close_zero_resolves).
  cbn [bind] in H. unfold payload in H. cbn [Exec.stdout] in H.
  rewrite Hparse in H. cbn [bind] in H. fold path in H.
  unfold Html.generateHTML in H.
  repeat split.
  - intros Hl. rewrite H, Hl. reflexivity.
  - intros Hk t Ht. rewrite H, Hk, Ht. reflexivity.
  - intros Hk e He. rewrite H, Hk, He. reflexivity.
  - now rewrite H.
Qed.

Lemma listing_page_witness :
  reply (handler (Scenario.deployment None (Threw []) Scenario.mute_child
                    Scenario.parse_two)
                 (Sample.get "/docs" None))
  = Some {| status := 200; headers := cors ++ [content_type];
            content := Page (Html.render Html.getLightTemplate
                               (normalize (lit "docs")
                                  [Scenario.photos; Scenario.readme])
                               (lit "docs")) |}.
Proof.
  refine (proj1 (listing_page
            (Scenario.deployment None (Threw []) Scenario.mute_child
               Scenario.parse_two)
            (Sample.get "/docs" None) (lit "/tmp/rclone")
            [] [] [Scenario.photos; Scenario.readme] _ _ _ _ _ _ _ _) _);
    try reflexivity.
  intros r z [<-|[<-|[]]]; cbn; intros [= <-]; reflexivity.
Defined.


(** X21: the link of a directory, followed.  The URL of a directory entry
    ends with a slash, and the request path of that URL keeps this slash;
    so when the link is followed, the URL of every entry listed there is
    the URL of the directory, one more slash, and the name of the entry:
    two slashes separate the directory from its entries. *)
Theorem directory_link_followed
    (requestPath : str) (dir child_entry : raw_entry) :
  IsDir dir = true ->
  let link := Html.url (format_entry requestPath dir) in
  endsWith (lit "/") link = true
  /\ requestPath_of link = slice_from link 1
  /\ Html.url (format_entry (requestPath_of link) child_entry) =
       link ++ lit "/" ++ Name child_entry ++
       (if IsDir child_entry then lit "/" else [])
  /\ includes (lit "//")
       (Html.url (format_entry (requestPath_of link) child_entry)) = true.
Proof.
  intros Hdir link.
  set (inner := requestPath ++
                (if truthy requestPath then lit "/" else []) ++ Name dir).
  assert (Hlink : link = lit "/" ++ inner ++ lit "/").
  { unfold link, format_entry, inner. cbn [Html.url]. rewrite Hdir.
    now rewrite <- !app_assoc. }
  assert (Hrp : requestPath_of link = inner ++ lit "/").
  { rewrite Hlink. unfold requestPath_of.
    assert (E : str_eqb (lit "/" ++ inner ++ lit "/") (lit "/") = false).
    { destruct inner; reflexivity. }
    rewrite E. unfold slice_from, slice, clamp_index.
    change (lit "/" ++ inner ++ lit "/") with (47%N :: inner ++ lit "/").
    cbn [length]. replace (1 <? 0)%Z with false by reflexivity.
    rewrite Z.min_l by lia.
    destruct (Z.of_nat (S (length (inner ++ lit "/"))) <? 0)%Z eqn:Hneg;
      [apply Z.ltb_lt in Hneg; lia|].
    rewrite Z.min_l by lia. change (Z.to_nat 1) with 1. cbn [skipn].
    apply firstn_all2. rewrite Z.max_l by lia. lia. }
  assert (Htr : truthy (inner ++ lit "/") = true) by now destruct inner.
  assert (Hchild :
    Html.url (format_entry (requestPath_of link) child_entry) =
      link ++ lit "/" ++ Name child_entry ++
      (if IsDir child_entry then lit "/" else [])).
  { unfold format_entry at 1. cbn [Html.url]. rewrite Hrp, Htr, Hlink.
    now rewrite <- !app_assoc. }
  repeat split.
  - rewrite Hlink. unfold endsWith. rewrite !rev_app_distr. reflexivity.
  - rewrite Hrp, Hlink. unfold slice_from, slice, clamp_index.
    change (lit "/" ++ inner ++ lit "/") with (47%N :: inner ++ lit "/").
    cbn [length]. replace (1 <? 0)%Z with false by reflexivity.
    rewrite Z.min_l by lia.
    destruct (Z.of_nat (S (length (inner ++ lit "/"))) <? 0)%Z eqn:Hneg;
      [apply Z.ltb_lt in Hneg; lia|].
    rewrite Z.min_l by lia. change (Z.to_nat 1) with 1. cbn [skipn].
    symmetry. apply firstn_all2. rewrite Z.max_l by lia. lia.
  - exact Hchild.
  - rewrite Hchild, Hlink.
    replace ((lit "/" ++ inner ++ lit "/") ++ lit "/" ++ Name child_entry ++
             (if IsDir child_entry then lit "/" else []))
      with ((lit "/" ++ inner) ++ lit "//" ++ Name child_entry ++
            (if IsDir child_entry then lit "/" else []))
      by (now rewrite <- !app_assoc).
    apply includes_intro.
Qed.

Lemma directory_link_followed_witness :
  Html.url (format_entry
              (requestPath_of (Html.url (format_entry (lit "docs")
                                           Scenario.photos)))
              Scenario.readme)
  = lit "/docs/photos//README.md".
Proof.
  refine (proj1 (proj2 (proj2 (directory_link_followed (lit "docs")
            Scenario.photos Scenario.readme _)))).
  reflexivity.
Defined.

End HandlerMore.

(** ** Texts free of a character *)

Lemma no_char_check (c : char) (x : str) :
  forallb (fun y => negb (N.eqb y c)) x = true -> ~ In c x.
Proof.
  intros H Hin. rewrite forallb_forall in H. specialize (H c Hin).
  now rewrite N.eqb_refl in H.
Qed.

Lemma no_char_app (c : char) (a b : str) :
  ~ In c a -> ~ In c b -> ~ In c (a ++ b).
Proof. intros Ha Hb H. apply in_app_iff in H as [H|H]; auto. Qed.

Ltac fixed_text := apply no_char_check; vm_compute; reflexivity.

(** ** More on [generateHTML] *)

Section HtmlMore.

Import Html Page.

Lemma template_parts :
  getLightTemplate =
    page_head ++ lit "{{.Name}}" ++ page_upper ++ breadcrumb_span ++
    page_middle ++ entries_span ++ page_tail.
Proof. vm_compute. reflexivity. Qed.

(** *** Replacement texts without a dollar *)

Lemma expand_plain (matched before after repl : str) :
  ~ In dollar repl -> expand matched before after repl = repl.
Proof.
  induction repl as [|c r IH]; intros H; [reflexivity|].
  cbn [expand].
  destruct (N.eqb_spec c dollar) as [->|_]; [exfalso; apply H; now left|].
  rewrite IH; [reflexivity|]. intros Hin. apply H. now right.
Qed.

Lemma replace_before (re_at : str -> option nat) (repl : str) (s : str) :
  ~ In dollar repl ->
  forall skip b1 b2,
    replace_from re_at repl skip b1 s = replace_from re_at repl skip b2 s.
Proof.
  intros Hd. induction s as [|c s IH]; intros skip b1 b2; [reflexivity|].
  cbn [replace_from]. destruct skip as [|k]; [|apply IH].
  destruct (re_at (c :: s)) as [[|k]|].
  - f_equal. apply IH.
  - rewrite !expand_plain by assumption. f_equal. apply IH.
  - f_equal. apply IH.
Qed.

Lemma replace_skip (re_at : str -> option nat) (repl : str) (a rest : str) :
  forall before,
    replace_from re_at repl (length a) before (a ++ rest) =
      replace_from re_at repl 0 (rev a ++ before) rest.
Proof.
  induction a as [|c a IH]; intros before.
  - cbn [length app rev]. now destruct rest.
  - cbn [length app replace_from rev]. rewrite IH.
    now rewrite <- app_assoc.
Qed.

Lemma mismatch_sound (p s rest : str) :
  mismatch p s = true -> startsWith p (s ++ rest) = false.
Proof.
  revert s. induction p as [|x p IH]; intros [|y s] H; cbn in H;
    try discriminate.
  cbn [app startsWith]. apply orb_prop in H as [H|H].
  - apply negb_true_iff in H. now rewrite H.
  - rewrite (IH _ H). apply andb_false_r.
Qed.

(** The scan copies a stretch in which the pattern cannot start. *)
Lemma replace_pass (re_at : str -> option nat) (p repl x rest : str) :
  opens_with re_at p -> ~ In dollar repl -> clear_of p x = true ->
  replace_from re_at repl 0 [] (x ++ rest) =
    x ++ replace_from re_at repl 0 [] rest.
Proof.
  intros Ho Hd. induction x as [|c x IH]; intros Hc; [reflexivity|].
  cbn [clear_of] in Hc. apply andb_prop in Hc as [Hm Hc].
  cbn [app replace_from].
  change (c :: x ++ rest) with ((c :: x) ++ rest).
  rewrite (Ho _ (mismatch_sound _ _ rest Hm)).
  cbn [app]. f_equal.
  rewrite (replace_before re_at repl (x ++ rest) Hd 0 [c] []).
  now apply IH.
Qed.

(** The scan replaces a match and goes on behind it. *)
Lemma replace_hit (re_at : str -> option nat) (repl m rest : str) :
  ~ In dollar repl -> m <> [] ->
  re_at (m ++ rest) = Some (length m) ->
  replace_from re_at repl 0 [] (m ++ rest) =
    repl ++ replace_from re_at repl 0 [] rest.
Proof.
  intros Hd Hne Hat. destruct m as [|c m]; [congruence|].
  cbn [app replace_from]. change (c :: m ++ rest) with ((c :: m) ++ rest).
  rewrite Hat. cbn [length]. rewrite expand_plain by assumption. f_equal.
  rewrite replace_skip.
  apply replace_before, Hd.
Qed.

Lemma replace_end (re_at : str -> option nat) (p repl x : str) :
  opens_with re_at p -> ~ In dollar repl -> clear_of p x = true ->
  replace_from re_at repl 0 [] x = x.
Proof.
  intros Ho Hd Hc. rewrite <- (app_nil_r x) at 1.
  rewrite (replace_pass re_at p repl x [] Ho Hd Hc). cbn [replace_from].
  apply app_nil_r.
Qed.

Lemma literal_opens (p : str) : opens_with (literal_at p) p.
Proof. intros s H. unfold literal_at. now rewrite H. Qed.

Lemma span_opens (dotall : bool) (open close : str) :
  opens_with (span_at dotall open close) open.
Proof. intros s H. unfold span_at. now rewrite H. Qed.

(** Text without an opening brace is clear of a pattern that starts with
    one. *)
Lemma clear_of_plain (p x : str) :
  ~ In lbrace x -> clear_of (lbrace :: p) x = true.
Proof.
  induction x as [|c x IH]; intros H; [reflexivity|].
  cbn [clear_of mismatch].
  destruct (N.eqb_spec lbrace c) as [<-|_]; [exfalso; apply H; now left|].
  cbn [negb orb andb]. apply IH. intros Hin. apply H. now right.
Qed.

Lemma clear_of_app (p x y : str) :
  clear_of p (x ++ y) = true -> clear_of p y = true.
Proof.
  induction x as [|c x IH]; intros H; [exact H|].
  cbn [app clear_of] in H. apply andb_prop in H as [_ H]. now apply IH.
Qed.

Lemma clear_of_brace (p x : str) :
  hd_error p = Some lbrace -> ~ In lbrace x -> clear_of p x = true.
Proof.
  destruct p as [|c p]; [discriminate|]. intros [= ->].
  apply clear_of_plain.
Qed.

(** *** The three replacements on the light template *)

Lemma title_replaced (title : str) :
  ~ In dollar title ->
  replace_all re_name title getLightTemplate =
    page_head ++ title ++ page_upper ++ breadcrumb_span ++
    page_middle ++ entries_span ++ page_tail.
Proof.
  intros Hd. unfold replace_all. rewrite template_parts.
  rewrite (replace_pass re_name (lit "{{.Name}}") title page_head);
    [|apply literal_opens | exact Hd | vm_compute; reflexivity].
  f_equal.
  rewrite (replace_hit re_name title (lit "{{.Name}}"));
    [|exact Hd | discriminate | vm_compute; reflexivity].
  f_equal;
    (apply (replace_end re_name (lit "{{.Name}}"));
       [apply literal_opens | exact Hd | vm_compute; reflexivity]).
Qed.

Lemma breadcrumb_replaced (title crumbs : str) :
  ~ In lbrace title -> ~ In dollar crumbs ->
  replace_all re_breadcrumb crumbs
    (page_head ++ title ++ page_upper ++ breadcrumb_span ++
     page_middle ++ entries_span ++ page_tail) =
    page_head ++ title ++ page_upper ++ crumbs ++
    page_middle ++ entries_span ++ page_tail.
Proof.
  intros Hb Hd. unfold replace_all.
  set (open := lit "{{range $i, $crumb := .Breadcrumb}}").
  assert (Ho : opens_with re_breadcrumb open) by apply span_opens.
  rewrite (replace_pass re_breadcrumb open crumbs page_head);
    [|exact Ho | exact Hd | vm_compute; reflexivity].
  f_equal.
  rewrite (replace_pass re_breadcrumb open crumbs title);
    [|exact Ho | exact Hd | apply clear_of_brace; [reflexivity | exact Hb]].
  f_equal.
  rewrite (replace_pass re_breadcrumb open crumbs page_upper);
    [|exact Ho | exact Hd | vm_compute; reflexivity].
  f_equal.
  rewrite (replace_hit re_breadcrumb crumbs breadcrumb_span);
    [|exact Hd | discriminate | vm_compute; reflexivity].
  f_equal;
    (apply (replace_end re_breadcrumb open);
       [exact Ho | exact Hd | vm_compute; reflexivity]).
Qed.

Lemma rows_replaced (title crumbs rows : str) :
  ~ In lbrace title -> ~ In lbrace crumbs -> ~ In dollar rows ->
  replace_all re_entries rows
    (page_head ++ title ++ page_upper ++ crumbs ++
     page_middle ++ entries_span ++ page_tail) =
    page_head ++ title ++ page_upper ++ crumbs ++
    page_middle ++ rows ++ page_tail.
Proof.
  intros Hb Hc Hd. unfold replace_all.
  set (open := lit "{{- range .Entries}}").
  assert (Ho : opens_with re_entries open) by apply span_opens.
  rewrite (replace_pass re_entries open rows page_head);
    [|exact Ho | exact Hd | vm_compute; reflexivity].
  f_equal.
  rewrite (replace_pass re_entries open rows title);
    [|exact Ho | exact Hd | apply clear_of_brace; [reflexivity | exact Hb]].
  f_equal.
  rewrite (replace_pass re_entries open rows page_upper);
    [|exact Ho | exact Hd | vm_compute; reflexivity].
  f_equal.
  rewrite (replace_pass re_entries open rows crumbs);
    [|exact Ho | exact Hd | apply clear_of_brace; [reflexivity | exact Hc]].
  f_equal.
  rewrite (replace_pass re_entries open rows page_middle);
    [|exact Ho | exact Hd | vm_compute; reflexivity].
  f_equal.
  rewrite (replace_hit re_entries rows entries_span);
    [|exact Hd | discriminate | vm_compute; reflexivity].
  f_equal;
    (apply (replace_end re_entries open);
       [exact Ho | exact Hd | vm_compute; reflexivity]).
Qed.

(** *** Where the characters of the inserted texts come from *)

Lemma split_on_chars (c ch : char) (s piece : str) :
  In piece (split_on c s) -> In ch piece -> In ch s.
Proof.
  revert piece. induction s as [|x s IH]; intros piece Hp Hc.
  - destruct Hp as [<-|[]]. contradiction.
  - cbn [split_on] in Hp. destruct (N.eqb x c).
    + destruct Hp as [<-|Hp]; [contradiction|]. right. eauto.
    + destruct (split_on c s) as [|q qs].
      * destruct Hp as [<-|[]]. destruct Hc as [<-|[]]. now left.
      * destruct Hp as [<-|Hp].
        -- destruct Hc as [<-|Hc]; [now left|]. right.
           apply (IH q); [now left | exact Hc].
        -- right. apply (IH piece); [now right | exact Hc].
Qed.

Lemma breadcrumbs_chars (path crumb : str) (ch : char) :
  In crumb (breadcrumbs path) -> In ch crumb -> In ch path.
Proof.
  unfold breadcrumbs. intros H Hc. apply filter_In in H as [H _].
  exact (split_on_chars Path.slash ch path crumb H Hc).
Qed.

Lemma in_firstn (A : Type) (n : nat) (l : list A) (x : A) :
  In x (firstn n l) -> In x l.
Proof.
  revert l. induction n as [|n IH]; intros [|y l] H; try contradiction.
  destruct H as [<-|H]; [now left | right; auto].
Qed.

Lemma breadcrumbLinks_inv (path : str) (c : crumb) :
  In c (breadcrumbLinks path) ->
  c = {| text := lit "Home"; link := lit "/" |}
  \/ exists i, In (text c) (breadcrumbs path)
               /\ link c = lit "/" ++ join (lit "/")
                             (firstn (i + 1) (breadcrumbs path)).
Proof.
  unfold breadcrumbLinks. intros [<-|H]; [now left|]. right.
  apply in_map_iff in H as ([i x] & <- & Hin).
  exists i. split; [|reflexivity].
  cbn [text snd]. eapply in_combine_r. exact Hin.
Qed.

(** Every character of the breadcrumb is a character of the path or one
    of [<a href="/">Home]. *)
Lemma breadcrumb_chars (path : str) (ch : char) :
  In ch (breadcrumb_of path) ->
  In ch path \/ In ch (litq "<a href=`/`>Home").
Proof.
  unfold breadcrumb_of. intros H.
  apply in_join in H as [H|(piece & Hp & H)].
  { right. vm_compute in H. vm_compute. tauto. }
  apply in_map_iff in Hp as (c & <- & Hc).
  unfold crumb_link in H. rewrite !in_app_iff in H.
  assert (Hlink : In ch (link c) ->
                  In ch path \/ In ch (litq "<a href=`/`>Home")).
  { intros Hl. destruct (breadcrumbLinks_inv path c Hc) as [->|(i & _ & E)].
    - right. vm_compute in Hl. vm_compute. tauto.
    - rewrite E in Hl. apply in_app_iff in Hl as [Hl|Hl].
      + right. vm_compute in Hl. vm_compute. tauto.
      + apply in_join in Hl as [Hl|(q & Hq & Hl)].
        * right. vm_compute in Hl. vm_compute. tauto.
        * left. apply in_firstn in Hq.
          exact (breadcrumbs_chars path q ch Hq Hl). }
  assert (Htext : In ch (text c) ->
                  In ch path \/ In ch (litq "<a href=`/`>Home")).
  { intros Ht. destruct (breadcrumbLinks_inv path c Hc) as [->|(i & Hin & _)].
    - right. vm_compute in Ht. vm_compute. tauto.
    - left. exact (breadcrumbs_chars path (text c) ch Hin Ht). }
  destruct H as [H|[H|[H|[H|H]]]]; auto;
    right; vm_compute in H; vm_compute; tauto.
Qed.

Lemma lit_char (s : string) (a : ascii) :
  In (N_of_ascii a) (lit s) -> In a (list_ascii_of_string s).
Proof.
  unfold lit. intros H. apply in_map_iff in H as (b & E & Hb).
  replace a with b; [exact Hb|].
  rewrite <- (ascii_N_embedding a), <- (ascii_N_embedding b). now f_equal.
Qed.

Lemma digits_no_dollar (d : Decimal.uint) :
  ~ In "$"%char (list_ascii_of_string (NilEmpty.string_of_uint d)).
Proof.
  induction d; cbn; intuition discriminate.
Qed.

Lemma of_Z_no_dollar (z : Z) : ~ In dollar (of_Z z).
Proof.
  unfold of_Z. intros H. change dollar with (N_of_ascii "$"%char) in H.
  apply lit_char in H. revert H.
  unfold NilZero.string_of_int, NilZero.string_of_uint.
  destruct (Z.to_int z) as [d|d].
  - destruct d; try apply digits_no_dollar. cbn. intuition discriminate.
  - cbn [list_ascii_of_string].
    destruct d; try (intros [E|H]; [discriminate E | revert H;
                                    apply digits_no_dollar]).
    cbn. intuition discriminate.
Qed.

Lemma size_or_no_dollar (dflt : Z) (sz : option Z) :
  ~ In dollar (size_or dflt sz).
Proof.
  unfold size_or. destruct sz as [z|]; [destruct (Z.eqb z 0)|];
    apply of_Z_no_dollar.
Qed.

Lemma row_no_dollar (e : entry) :
  plain_entry e -> ~ In dollar (row e).
Proof.
  intros (Hn & Hu & Ht & _). unfold row.
  repeat apply no_char_app; try fixed_text; try assumption;
    try apply size_or_no_dollar.
  - destruct (isDir e); fixed_text.
  - destruct (isDir e); [fixed_text|].
    repeat apply no_char_app; try fixed_text. apply size_or_no_dollar.
  - destruct (modTime e) as [t|]; [|fixed_text].
    destruct (truthy t); [|fixed_text]. now apply Ht.
Qed.

Lemma rows_no_dollar (entries : list entry) :
  Forall plain_entry entries -> ~ In dollar (rows_of entries).
Proof.
  intros Hall H. unfold rows_of in H.
  apply in_join in H as [[]|(piece & Hp & H)].
  apply in_map_iff in Hp as (e & <- & He).
  rewrite Forall_forall in Hall.
  exact (row_no_dollar e (Hall e He) H).
Qed.

Lemma light_page_parts (entries : list entry) (currentPath : str) :
  Forall plain currentPath ->
  Forall plain_entry entries ->
  render getLightTemplate entries currentPath =
    page_head ++ title_of currentPath ++ page_upper ++
    breadcrumb_of currentPath ++ page_middle ++
    rows_of entries ++ page_tail.
Proof.
  intros Hpath Hentries. rewrite Forall_forall in Hpath.
  assert (Htitle : forall ch, In ch (title_of currentPath) ->
                              ch <> lbrace /\ ch <> dollar).
  { intros ch. unfold title_of. destruct (truthy currentPath).
    - apply Hpath.
    - intros H. vm_compute in H.
      repeat (destruct H as [<-|H]; [split; discriminate|]). contradiction. }
  assert (Hcrumbs : forall ch, In ch (breadcrumb_of currentPath) ->
                               ch <> lbrace /\ ch <> dollar).
  { intros ch H. apply breadcrumb_chars in H as [H|H].
    - now apply Hpath.
    - vm_compute in H.
      repeat (destruct H as [<-|H]; [split; discriminate|]). contradiction. }
  unfold render. fold (title_of currentPath). fold (breadcrumb_of currentPath).
  fold (rows_of entries).
  rewrite title_replaced.
  - rewrite breadcrumb_replaced.
    + apply rows_replaced.
      * intros H. now apply Htitle in H as [H _].
      * intros H. now apply Hcrumbs in H as [H _].
      * now apply rows_no_dollar.
    + intros H. now apply Htitle in H as [H _].
    + intros H. now apply Hcrumbs in H as [_ H].
  - intros H. now apply Htitle in H as [_ H].
Qed.

(** X22: the structure of the page.  When the request path holds neither an
    opening brace nor a dollar sign, no name, URL or modification time of
    an entry holds a dollar sign, and every size is a safe integer,
    [generateHTML] in light mode returns
    the template with its three spans replaced: the title by the path (or
    Root for the empty path), the breadcrumb by the links of the path, and
    the rows by one row per entry, in the order of the entries.  Everything
    else, the "Go up" row included, is the fixed text of the template, and
    the dark template is not read. *)
Theorem light_page_structure
    (dark : outcome str) (entries : list entry) (currentPath : str) :
  Forall plain currentPath ->
  Forall plain_entry entries ->
  generateHTML dark entries currentPath false =
    Ok (page_head ++ title_of currentPath ++ page_upper ++
        breadcrumb_of currentPath ++ page_middle ++
        rows_of entries ++ page_tail)
  /\ includes go_up_row page_middle = true.
Proof.
  intros Hpath Hentries. split; [|reflexivity].
  unfold generateHTML. cbn [bind].
  now rewrite light_page_parts.
Qed.

Lemma light_page_structure_witness :
  generateHTML (Threw [])
    (Handler.normalize (lit "docs") [Scenario.photos; Scenario.readme])
    (lit "docs") false
  = Ok (page_head ++ lit "docs" ++ page_upper ++
        litq "<a href=`/`>Home</a>/<a href=`/docs`>docs</a>" ++ page_middle ++
        rows_of (Handler.normalize (lit "docs")
                   [Scenario.photos; Scenario.readme]) ++ page_tail).
Proof.
  refine (proj1 (light_page_structure (Threw [])
            (Handler.normalize (lit "docs") [Scenario.photos; Scenario.readme])
            (lit "docs") _ _)).
  - repeat constructor; discriminate.
  - apply Forall_forall. intros e [<-|[<-|[]]];
      (split; [|split; [|split]]);
      try (intros t; cbn; try discriminate; intros [= <-]);
      try reflexivity; vm_compute; intuition discriminate.
Defined.

(** *** The breadcrumb *)

Lemma breadcrumbs_clean (path crumb : str) :
  In crumb (breadcrumbs path) -> crumb <> [] /\ ~ In Path.slash crumb.
Proof.
  unfold breadcrumbs. intros H. apply filter_In in H as [H Ht]. split.
  - intros ->. discriminate.
  - pose proof (split_on_pieces Path.slash path) as Hall.
    rewrite Forall_forall in Hall. now apply Hall.
Qed.

Lemma nth_error_combine_seq (A : Type) (l : list A) : forall a i x,
  nth_error l i = Some x ->
  nth_error (combine (seq a (length l)) l) i = Some (a + i, x).
Proof.
  induction l as [|y l IH]; intros a [|i] x H; try discriminate.
  - cbn in *. injection H as ->. now rewrite Nat.add_0_r.
  - cbn [length seq combine nth_error] in *.
    rewrite (IH (S a) i x H). f_equal. f_equal. lia.
Qed.

Lemma filter_all (A : Type) (f : A -> bool) (l : list A) :
  (forall x, In x l -> f x = true) -> filter f l = l.
Proof.
  induction l as [|x l IH]; intros H; [reflexivity|].
  cbn [filter]. rewrite (H x (or_introl eq_refl)). f_equal.
  apply IH. intros y Hy. apply H. now right.
Qed.

(** Reading a link back gives the segments it was built from. *)
Lemma breadcrumbs_of_link (segments : list str) :
  segments <> [] ->
  (forall c, In c segments -> c <> [] /\ ~ In Path.slash c) ->
  breadcrumbs (lit "/" ++ join (lit "/") segments) = segments.
Proof.
  intros Hne Hclean. unfold breadcrumbs.
  change (lit "/" ++ join (lit "/") segments)
    with (Path.slash :: join [Path.slash] segments).
  cbn [split_on]. rewrite N.eqb_refl.
  rewrite split_on_join.
  - cbn [filter truthy]. apply filter_all.
    intros c Hc. destruct (Hclean c Hc) as [Hc1 _]. now destruct c.
  - exact Hne.
  - apply Forall_forall. intros c Hc. now apply Hclean.
Qed.

(** X23: the breadcrumb follows the path.  The breadcrumb starts with Home,
    linked to /, and has one more link per non-empty segment of the request
    path (empty segments, as left by doubled or trailing slashes, are
    dropped).  The link of the i-th segment is a slash followed by the first
    i segments joined by slashes; read back as a path, it yields exactly
    these segments. *)
Theorem breadcrumb_links (path : str) (i : nat) (c : str) :
  nth_error (breadcrumbs path) i = Some c ->
  let upto := firstn (S i) (breadcrumbs path) in
  nth_error (breadcrumbLinks path) (S i) =
    Some {| text := c; link := lit "/" ++ join (lit "/") upto |}
  /\ c <> [] /\ ~ In Path.slash c
  /\ breadcrumbs (lit "/" ++ join (lit "/") upto) = upto
  /\ nth_error (breadcrumbLinks path) 0 =
       Some {| text := lit "Home"; link := lit "/" |}
  /\ length (breadcrumbLinks path) = S (length (breadcrumbs path)).
Proof.
  intros Hi upto.
  assert (Hin : In c (breadcrumbs path)) by (eapply nth_error_In; eauto).
  destruct (breadcrumbs_clean path c Hin) as [Hc1 Hc2].
  repeat split; try assumption.
  - unfold breadcrumbLinks. cbn [nth_error].
    rewrite nth_error_map, (nth_error_combine_seq _ _ 0 i c Hi).
    cbn [option_map fst snd]. unfold upto.
    now replace (0 + i + 1) with (S i) by lia.
  - apply breadcrumbs_of_link.
    + unfold upto. destruct (breadcrumbs path); [destruct i; discriminate|].
      discriminate.
    + intros x Hx. apply (breadcrumbs_clean path). unfold upto in Hx.
      now apply in_firstn in Hx.
  - unfold breadcrumbLinks. cbn [length]. f_equal.
    rewrite length_map, length_combine, length_seq. lia.
Qed.

Lemma breadcrumb_links_witness :
  nth_error (breadcrumbLinks (lit "docs//2024/")) 2 =
    Some {| text := lit "2024"; link := lit "/docs/2024" |}.
Proof.
  refine (proj1 (breadcrumb_links (lit "docs//2024/") 1 (lit "2024") _)).
  reflexivity.
Defined.

End HtmlMore.

(** ** From the request to the page *)

Section EndToEnd.

Import Handler Stage Page.

Lemma normalize_plain (path : str) (entries : list raw_entry) :
  Forall plain path ->
  Forall plain_record entries ->
  Forall plain_entry (normalize path entries).
Proof.
  intros Hpath Hall. apply Forall_forall. intros e He.
  unfold normalize in He. apply in_map_iff in He as (r & <- & Hr).
  rewrite Forall_forall in Hall.
  destruct (Hall r Hr) as (Hn & Ht & Hz).
  assert (Hp : ~ In Html.dollar path).
  { intros H. rewrite Forall_forall in Hpath.
    destruct (Hpath _ H) as [_ Hd]. now apply Hd. }
  unfold plain_entry, format_entry.
  cbn [Html.name Html.url Html.modTime Html.size].
  split; [exact Hn|]. split; [|split; [exact Ht | exact Hz]].
  repeat apply no_char_app; try assumption; try fixed_text.
  - destruct (truthy path); fixed_text.
  - destruct (IsDir r); fixed_text.
Qed.

(** X25: from the request to the page.  Once provisioning and [setupConfig]
    have returned, for an authorized request in light mode whose child
    exits with code 0 and whose payload parses, with a request path free of
    opening braces and dollar signs and records whose names and
    modification times are free of dollar signs and whose sizes are safe
    integers, the reply is
    status 200, Content-Type text/html, and the page is the light template
    with the request path as title, the breadcrumb of the request path, and
    one row per record of the payload, in order, each linking to the URL
    built from the request path and the name. *)
Theorem served_page
    (w : world) (req : request) (rclonePath : str)
    (before after : list Exec.event) (entries : list raw_entry) :
  str_eqb (method req) (lit "OPTIONS") = false ->
  Provision.returned (Provision.setupRclone (provision w)) = Ok rclonePath ->
  config_ready w ->
  check_auth w (authorization req) = Authorized ->
  isDarkMode w = false ->
  child w (the_call w req rclonePath)
    = before ++ Exec.Close (Some 0%Z) :: after ->
  forallb Trace.is_data before = true ->
  json_parse w (if truthy (Trace.stdout_chunks before)
                then Trace.stdout_chunks before else lit "[]") = Ok entries ->
  let path := requestPath_of (url req) in
  Forall plain path ->
  Forall plain_record entries ->
  reply (handler w req) =
    Some {| status := 200;
            headers := cors ++ [content_type];
            content := Page (page_head ++ title_of path ++ page_upper ++
                             breadcrumb_of path ++ page_middle ++
                             rows_of (normalize path entries) ++ page_tail) |}.
Proof.
  intros Hm Hp Hready Ha Hlight Hc Hd Hparse path Hpath Hentries.
  rewrite (handler_settled w req rclonePath
             (Ok {| Exec.stdout := Trace.stdout_chunks before;
                    Exec.stderr := Trace.stderr_chunks before |}));
    try assumption.
  - cbn [bind reply]. unfold payload. cbn [Exec.stdout].
    rewrite Hparse. cbn [bind]. fold path.
    unfold Html.generateHTML. rewrite Hlight. cbn [bind].
    rewrite light_page_parts; [reflexivity | exact Hpath |].
    now apply normalize_plain.
  - now rewrite Hc, close_zero_resolves.
Qed.

Lemma served_page_witness :
  reply (handler (Scenario.deployment None (Threw []) Scenario.mute_child
                    Scenario.parse_two)
                 (Sample.get "/docs" None))
  = Some {| status := 200;
            headers := cors ++ [content_type];
            content :=
              Page (page_head ++ lit "docs" ++ page_upper ++
                    litq "<a href=`/`>Home</a>/<a href=`/docs`>docs</a>" ++
                    page_middle ++
                    rows_of (normalize (lit "docs")
                               [Scenario.photos; Scenario.readme]) ++
                    page_tail) |}.
Proof.
  refine (served_page
            (Scenario.deployment None (Threw []) Scenario.mute_child
               Scenario.parse_two)
            (Sample.get "/docs" None) (lit "/tmp/rclone")
            [] [] [Scenario.photos; Scenario.readme] _ _ _ _ _ _ _ _ _ _);
    try reflexivity.
  - repeat constructor; discriminate.
  - apply Forall_forall. intros r [<-|[<-|[]]]; (split; [|split]);
      try (intros t; cbn; try discriminate; intros [= <-]);
      try reflexivity; vm_compute; intuition discriminate.
Defined.

(** X26: the challenge.  With USERNAME and PASSWORD both set, a request
    without an Authorization header, with an empty one, or with one that
    does not start with "Basic " (the comparison is case sensitive) is
    answered, once provisioning and [setupConfig] have returned, with
    status 401, the header
    WWW-Authenticate: Basic realm="Rclone Index" after the CORS headers,
    and the JSON error "Authentication required"; no child is started. *)
Theorem unauthenticated_challenge
    (w : world) (req : request) (rclonePath : str) (config : str * str) :
  truthy_opt (USERNAME w) && truthy_opt (PASSWORD w) = true ->
  str_eqb (method req) (lit "OPTIONS") = false ->
  Provision.returned (Provision.setupRclone (provision w)) = Ok rclonePath ->
  Config.setupConfig (config_io w) (config_env w) (config_file w)
    = Ok config ->
  authorization req = None \/
  (exists a, authorization req = Some a /\
             startsWith (lit "Basic ") a = false) ->
  handler w req =
    {| reply := Some
         {| status := 401;
            headers := cors ++
              [(lit "WWW-Authenticate", litq "Basic realm=`Rclone Index`")];
            content := Json (lit "Authentication required") None |};
       spawned := [] |}.
Proof.
  intros Hon Hm Hp Hconf Hauth.
  assert (Hc : check_auth w (authorization req) = Unauthenticated).
  { unfold check_auth. rewrite Hon.
    destruct Hauth as [->|(a & -> & Hb)]; [reflexivity|].
    rewrite Hb. cbn [negb]. now rewrite orb_true_r. }
  unfold handler. rewrite Hm, Hp, Hconf. destruct config as [path text].
  now rewrite Hc.
Qed.

Lemma unauthenticated_challenge_witness :
  option_map status
    (reply (handler
              (Sample.world (Some (lit "alice")) (Some (lit "secret")) None)
              (Sample.get "/" (Some (lit "basic YWxpY2U6c2VjcmV0")))))
  = Some 401%Z.
Proof.
  refine (f_equal (fun r => option_map status (reply r))
            (unauthenticated_challenge
               (Sample.world (Some (lit "alice")) (Some (lit "secret")) None)
               (Sample.get "/" (Some (lit "basic YWxpY2U6c2VjcmV0")))
               (lit "/tmp/rclone")
               (lit "/tmp/rclone.conf", Config.default_config) _ _ _ _ _)).
  - reflexivity.
  - reflexivity.
  - reflexivity.
  - reflexivity.
  - right. eexists. split; reflexivity.
Defined.

End EndToEnd.
